(** * Comparable-company valuation: a shallow embedding of
    [Comparable-valuation.py] and the properties of its specification.

    Conventions of the embedding.
    - Python [str] values are Rocq strings read as sequences of code points
      below 256 (Latin-1); [None] is [None] of an option type.
    - Python numbers ([int] and [float]) are exact rationals [Q]; the
      rounding of binary floating point is not part of the model.
    - A Python exception is a value of [exn]; a function that can raise
      returns in [res], and the functions that also print, prompt, call the
      data provider or touch the results file run in the monad [M] over an
      explicit [world].
    - A file of the [world] holds the table last written to it; reading it
      back follows the defaults of [pd.read_excel], which takes some texts
      for missing values. *)

From Stdlib Require Import Ascii String NArith QArith Qabs Lqa.
From stdpp Require Import base list strings gmap.

Open Scope string_scope.
Open Scope list_scope.

(** ** Python strings *)

Module PyStr.

Definition code (c : ascii) : N := N_of_ascii c.

Definition between (lo hi : N) (c : ascii) : bool :=
  ((lo <=? code c) && (code c <=? hi))%N.

(** The character class [a-zA-Z] of the regular expression. *)
Definition is_alpha (c : ascii) : bool := between 65 90 c || between 97 122 c.

(** Whitespace as [\s] and [str.split] see it, on code points below 256:
    TAB..CR, FS..US, SPACE, NEL and NBSP. *)
Definition is_space (c : ascii) : bool :=
  between 9 13 c || between 28 32 c || between 133 133 c || between 160 160 c.

(** [str.lower] on one Latin-1 code point. *)
Definition lower_char (c : ascii) : ascii :=
  if between 65 90 c || (between 192 222 c && negb (between 215 215 c))
  then ascii_of_N (code c + 32) else c.

Fixpoint lower (s : string) : string :=
  match s with
  | EmptyString => EmptyString
  | String c r => String (lower_char c) (lower r)
  end.

Definition flush (cur : string) : list string :=
  match cur with EmptyString => [] | _ => [cur] end.

(** [split_from cur s]: the words of [s], the first one continuing the
    word [cur] already read. *)
Fixpoint split_from (cur s : string) : list string :=
  match s with
  | EmptyString => flush cur
  | String c r =>
      if is_space c then flush cur ++ split_from EmptyString r
      else split_from (cur +:+ String c EmptyString) r
  end.

(** [s.split()]: maximal runs of non-whitespace characters. *)
Definition split (s : string) : list string := split_from EmptyString s.

Fixpoint lstrip (s : string) : string :=
  match s with
  | String c r => if is_space c then lstrip r else s
  | EmptyString => EmptyString
  end.

Fixpoint rstrip (s : string) : string :=
  match s with
  | EmptyString => EmptyString
  | String c r =>
      match rstrip r with
      | EmptyString => if is_space c then EmptyString else String c EmptyString
      | r' => String c r'
      end
  end.

(** [s.strip()] *)
Definition strip (s : string) : string := rstrip (lstrip s).

(** [len(s)] *)
Definition len (s : string) : nat := String.length s.

Fixpoint any_char (p : ascii -> bool) (s : string) : bool :=
  match s with
  | EmptyString => false
  | String c r => p c || any_char p r
  end.

End PyStr.

(** ** Exceptions *)

Inductive exn : Type :=
  | ZeroDivisionError
  | TypeError
  | AttributeError
  | EOFError
  | KeyError
  | KeyboardInterrupt
  | SystemExit
  | ProviderError (reason : string).

Definition res (A : Type) : Type := exn + A.

Definition Ok {A} (a : A) : res A := inr a.
Definition Raise {A} (e : exn) : res A := inl e.

Definition res_bind {A B} (r : res A) (k : A -> res B) : res B :=
  match r with
  | inl e => inl e
  | inr a => k a
  end.

(** The exceptions of class [Exception], the ones [except Exception] catches;
    [KeyboardInterrupt] and [SystemExit] derive from [BaseException] only. *)
Definition is_Exception (e : exn) : bool :=
  match e with
  | KeyboardInterrupt | SystemExit => false
  | _ => true
  end.

Definition raised {A} (r : res A) : bool :=
  match r with inl _ => true | inr _ => false end.

(** ** Keyword extraction *)

(** List of stopwords to exclude from keyword extraction. *)
Definition STOPWORDS : gset string :=
  list_to_set
    [ "the"; "and"; "a"; "in"; "of"; "for"; "with"; "on"; "at"; "to"; "by";
      "from"; "as"; "that"; "which"; "this"; "these"; "those"; "it"; "is";
      "are"; "be"; "has"; "have"; "was"; "were"; "been"; "being"; "its";
      "an"; "or"; "but"; "also"; "about"; "under"; "over"; "through";
      "throughout"; "using"; "utilizing"; "their"; "other" ].

(** [re.sub(r'[^a-zA-Z\s]', '', description)] *)
Fixpoint re_sub_non_alpha (description : string) : string :=
  match description with
  | EmptyString => EmptyString
  | String c r =>
      if PyStr.is_alpha c || PyStr.is_space c
      then String c (re_sub_non_alpha r)
      else re_sub_non_alpha r
  end.

(** [words = description.lower().split()] after the clean-up. *)
Definition description_words (description : string) : list string :=
  PyStr.split (PyStr.lower (re_sub_non_alpha description)).

(** The condition of the comprehension:
    [word not in STOPWORDS and word != company_name.lower() and len(word) > 3]. *)
Definition keep_word (company_name word : string) : bool :=
  bool_decide (word ∉ STOPWORDS)
  && negb (String.eqb word (PyStr.lower company_name))
  && (3 <? PyStr.len word)%nat.

Definition extract_keywords (description company_name : string) : list string :=
  List.filter (keep_word company_name) (description_words description).

(** The same call on values that may be [None]: [re.sub] raises [TypeError]
    on a [None] description, and [company_name.lower()] raises
    [AttributeError] as soon as one word that is not a stopword reaches it
    ([and] evaluates left to right and stops at the first false operand). *)
Definition extract_keywords_opt (description company_name : option string)
  : res (list string) :=
  match description with
  | None => Raise TypeError
  | Some d =>
      match company_name with
      | Some n => Ok (extract_keywords d n)
      | None =>
          if forallb (fun word => bool_decide (word ∈ STOPWORDS)) (description_words d)
          then Ok []
          else Raise AttributeError
      end
  end.

(** ** Keyword match percentage *)

Definition overlap (target_keywords peer_keywords : list string) : gset string :=
  list_to_set target_keywords ∩ list_to_set peer_keywords.

Definition Qof_nat (n : nat) : Q := inject_Z (Z.of_nat n).

(** [a / b] on numbers: [ZeroDivisionError] when [b] is zero. *)
Definition py_div (a b : Q) : res Q :=
  if Qeq_bool b 0 then Raise ZeroDivisionError else Ok (a / b)%Q.

Definition keyword_match_percentage (target_keywords peer_keywords : list string)
  : res Q :=
  match peer_keywords with
  | [] => Ok 0%Q
  | _ =>
      res_bind (py_div (Qof_nat (size (overlap target_keywords peer_keywords)))
                       (Qof_nat (length target_keywords)))
               (fun r => Ok (r * 100)%Q)
  end.

(** ** Python values, metrics and the results table *)

(** A value printed or stored: [None], a number or a string. *)
Inductive pyval : Type :=
  | PNone
  | PNum (q : Q)
  | PStr (s : string).

Definition of_num (o : option Q) : pyval :=
  match o with Some q => PNum q | None => PNone end.

Definition of_str (o : option string) : pyval :=
  match o with Some s => PStr s | None => PNone end.

(** Truth value of a number that may be [None]: [None] and zero are false. *)
Definition truthy (o : option Q) : bool :=
  match o with
  | Some q => negb (Qeq_bool q 0)
  | None => false
  end.

Definition Qlt_bool (a b : Q) : bool := negb (Qle_bool b a).

(** [x > 0], only ever evaluated behind the truth test of [x]. *)
Definition positive (o : option Q) : bool :=
  match o with
  | Some q => Qlt_bool 0 q
  | None => false
  end.

(** The record [stock.info] of the data provider. A field is the value
    [stock.info.get(key, None)] gives: [None] for an absent key and for a key
    whose value is [None]. [shortName_null] tells the two apart for the one
    key the code tests with [in]: it is true when the key 'shortName' is
    there with the value [None]. *)
Record Info : Type := {
  shortName : option string;
  shortName_null : bool;
  currentPrice : option Q;
  netIncomeToCommon : option Q;
  ebitda : option Q;
  totalRevenue : option Q;
  marketCap : option Q;
  sharesOutstanding : option Q;
  industry : option string;
  longBusinessSummary : option string
}.

(** The dictionary built by [fetch_metrics_and_description]. *)
Record CompanyMetrics : Type := {
  Price : option Q;
  Earnings : option Q;
  Ebitda : option Q;
  Revenue : option Q;
  MarketCap : option Q;
  SharesOutstanding : option Q;
  Industry : option string;
  Description : option string;
  CompanyName : option string
}.

Definition metrics_of_info (i : Info) : CompanyMetrics :=
  {| Price := currentPrice i;
     Earnings := netIncomeToCommon i;
     Ebitda := ebitda i;
     Revenue := totalRevenue i;
     MarketCap := marketCap i;
     SharesOutstanding := sharesOutstanding i;
     Industry := industry i;
     Description := longBusinessSummary i;
     CompanyName := shortName i |}.

(** [target_metrics.items()], in insertion order. *)
Definition metrics_items (m : CompanyMetrics) : list (string * pyval) :=
  [ ("Price", of_num (Price m)); ("Earnings", of_num (Earnings m));
    ("Ebitda", of_num (Ebitda m)); ("Revenue", of_num (Revenue m));
    ("MarketCap", of_num (MarketCap m));
    ("SharesOutstanding", of_num (SharesOutstanding m));
    ("Industry", of_str (Industry m)); ("Description", of_str (Description m));
    ("CompanyName", of_str (CompanyName m)) ].

(** A row of the results table, columns Stock, Metric and Value. *)
Record ResultRow : Type := {
  Stock : pyval;
  Metric : pyval;
  Value : pyval
}.

Definition is_null (v : pyval) : bool :=
  match v with PNone => true | _ => false end.

Definition all_null (r : ResultRow) : bool :=
  is_null (Stock r) && is_null (Metric r) && is_null (Value r).

(** File where we store the results. *)
Definition EXCEL_FILE : string := "comparable_analysis.xlsx".

(** The texts [pd.read_excel] takes for a missing value when it is called,
    as here, with its default [na_values]. *)
Definition NA_VALUES : gset string :=
  list_to_set
    [ EmptyString; "#N/A"; "#N/A N/A"; "#NA"; "-1.#IND"; "-1.#QNAN"; "-NaN";
      "-nan"; "1.#IND"; "1.#QNAN"; "<NA>"; "N/A"; "NA"; "NULL"; "NaN"; "None";
      "n/a"; "nan"; "null" ].

(** A cell as it is read back: a text that spells a missing value is read
    as missing. *)
Definition read_cell (v : pyval) : pyval :=
  match v with
  | PStr s => if bool_decide (s ∈ NA_VALUES) then PNone else PStr s
  | _ => v
  end.

Definition read_row (r : ResultRow) : ResultRow :=
  {| Stock := read_cell (Stock r);
     Metric := read_cell (Metric r);
     Value := read_cell (Value r) |}.

(** A cell of the sheet that holds nothing: a missing value is written as
    an empty cell. *)
Definition empty_cell (v : pyval) : bool :=
  match v with
  | PNone => true
  | PStr s => String.eqb s EmptyString
  | PNum _ => false
  end.

Definition empty_row (r : ResultRow) : bool :=
  empty_cell (Stock r) && empty_cell (Metric r) && empty_cell (Value r).

(** The rows of a sheet up to the last one that holds something. *)
Fixpoint drop_trailing_empty (rows : list ResultRow) : list ResultRow :=
  match rows with
  | [] => []
  | r :: rest =>
      match drop_trailing_empty rest with
      | [] => if empty_row r then [] else [r]
      | kept => r :: kept
      end
  end.

(** The table [pd.read_excel] gives back for the sheet [to_excel] wrote:
    the rows after the last one with a value are not read, and the cells are
    read with [read_cell]. pandas also re-types a whole column when every
    cell of it spells a number or a truth value; such cells stay text here. *)
Definition read_sheet (rows : list ResultRow) : list ResultRow :=
  map read_row (drop_trailing_empty rows).

(** ** The world: console, provider calls and files *)

Inductive message : Type :=
  | MsgFound (name ticker : string)
  | MsgFoundUnnamed (ticker : string)
  | MsgNoFullData (ticker : string)
  | MsgFetchError (ticker : string) (e : exn)
  | MsgTargetKeywords (keywords : list string)
  | MsgCheckingPeer (peer : string) (market_cap : option Q) (industry : option string)
  | MsgMatchPercentage (peer : string) (pct : Q)
  | MsgAddedOnKeywords (peer : string)
  | MsgPERatios (ratios : list Q)
  | MsgEVRatios (ratios : list Q)
  | MsgMedians (median_pe median_ev_ebitda : option Q)
  | MsgNoComparables (ticker : option string)
  | MsgTargetHeader (ticker : string)
  | MsgItem (key : string) (value : pyval)
  | MsgFairValuesHeader
  | MsgEVDifference (fair_value diff : Q)
  | MsgPEDifference (fair_value diff : Q)
  | MsgAppended
  | MsgNoValidStock.

Inductive prompt : Type :=
  | AskTicker
  | AskConfirmation.

Inductive event : Type :=
  | EvPrint (m : message)
  | EvInput (p : prompt)
  | EvFetch (ticker : option string).

Record world : Type := World {
  w_stdin : list string;
  w_trace : list event;
  w_files : gmap string (list ResultRow)
}.

Definition M (A : Type) : Type := world -> world * res A.

Definition ret {A} (a : A) : M A := fun w => (w, Ok a).

Definition bind {A B} (m : M A) (k : A -> M B) : M B :=
  fun w =>
    match m w with
    | (w', inr a) => k a w'
    | (w', inl e) => (w', inl e)
    end.

Definition lift {A} (r : res A) : M A := fun w => (w, r).

(** [try: m except Exception as e: h e]; an exception that is not of class
    [Exception] passes through. *)
Definition try_except {A} (m : M A) (h : exn -> M A) : M A :=
  fun w =>
    match m w with
    | (w', inl e) => if is_Exception e then h e w' else (w', inl e)
    | done => done
    end.

Declare Scope py_scope.
Delimit Scope py_scope with py.
Notation "x <- m ;; k" := (bind m (fun x => k))
  (at level 100, m at next level, right associativity) : py_scope.
Notation "m ;; k" := (bind m (fun _ => k))
  (at level 100, right associativity) : py_scope.
Open Scope py_scope.

Definition emit (e : event) : M unit :=
  fun w => (World (w_stdin w) (w_trace w ++ [e]) (w_files w), Ok tt).

Definition print (m : message) : M unit := emit (EvPrint m).

(** [input(prompt)]: the next line of standard input, [EOFError] at its end.
    An interrupt typed at the prompt is not part of the input. *)
Definition input (p : prompt) : M string :=
  fun w =>
    let t := w_trace w ++ [EvInput p] in
    match w_stdin w with
    | [] => (World [] t (w_files w), Raise EOFError)
    | line :: rest => (World rest t (w_files w), Ok line)
    end.

Definition path_exists (file_name : string) : M bool :=
  fun w => (w, Ok (bool_decide (is_Some (w_files w !! file_name)))).

(** [pd.read_excel(file_name)], called on a file that exists. *)
Definition read_excel (file_name : string) : M (list ResultRow) :=
  fun w => (w, Ok (read_sheet (default [] (w_files w !! file_name)))).

Definition to_excel (df : list ResultRow) (file_name : string) : M unit :=
  fun w => (World (w_stdin w) (w_trace w) (<[file_name := df]> (w_files w)), Ok tt).

Definition run {A} (m : M A) (w : world) : world * res A := m w.

(** ** Peer screening *)

Definition get (o : option Q) : Q := default 0%Q o.

(** [keyword_min_threshold <= match_percentage <= keyword_max_threshold] *)
Definition in_band (keyword_min_threshold keyword_max_threshold match_percentage : Q)
  : bool :=
  Qle_bool keyword_min_threshold match_percentage
  && Qle_bool match_percentage keyword_max_threshold.

(** [abs(peer_market_cap - target_market_cap) / target_market_cap]: the
    subtraction raises [TypeError] on a [None] target, the division
    [ZeroDivisionError] on a zero one. *)
Definition market_cap_deviation (peer_market_cap : Q) (target_market_cap : option Q)
  : res Q :=
  match target_market_cap with
  | None => Raise TypeError
  | Some t => py_div (Qabs (peer_market_cap - t)) t
  end.

(** The condition of the [if]: market cap known, within tolerance, and
    match percentage in the band. *)
Definition primary_condition (peer_market_cap target_market_cap : option Q)
    (tolerance keyword_min_threshold keyword_max_threshold match_percentage : Q)
  : res bool :=
  if truthy peer_market_cap then
    res_bind (market_cap_deviation (get peer_market_cap) target_market_cap)
      (fun deviation =>
         Ok (Qle_bool deviation tolerance
             && in_band keyword_min_threshold keyword_max_threshold match_percentage))
  else Ok false.

Inductive verdict : Type :=
  | AcceptPrimary
  | AcceptFallback
  | Reject.

Definition accepted (v : verdict) : bool :=
  match v with Reject => false | _ => true end.

(** The [if] / [elif] of the loop body. *)
Definition screen_peer (peer_market_cap target_market_cap : option Q)
    (tolerance keyword_min_threshold keyword_max_threshold match_percentage : Q)
  : res verdict :=
  res_bind
    (primary_condition peer_market_cap target_market_cap tolerance
       keyword_min_threshold keyword_max_threshold match_percentage)
    (fun primary =>
       if primary then Ok AcceptPrimary
       else if in_band keyword_min_threshold keyword_max_threshold match_percentage
            then Ok AcceptFallback
            else Ok Reject).

(** ** Valuation arithmetic *)

Fixpoint insert_sorted (x : Q) (l : list Q) : list Q :=
  match l with
  | [] => [x]
  | y :: r => if Qle_bool x y then x :: l else y :: insert_sorted x r
  end.

Definition sort_values (l : list Q) : list Q := foldr insert_sorted [] l.

(** [pd.Series(ratios).median()]: the middle value of the sorted sample,
    the mean of the two middle values when the count is even. *)
Definition median (ratios : list Q) : Q :=
  let s := sort_values ratios in
  let n := length s in
  if Nat.even n
  then ((nth (n / 2 - 1) s 0 + nth (n / 2) s 0) / 2)%Q
  else nth (n / 2) s 0%Q.

Definition median_opt (ratios : list Q) : option Q :=
  match ratios with
  | [] => None
  | _ => Some (median ratios)
  end.

(** What one comparable adds to [pe_ratios]. *)
Definition pe_ratio (metrics : CompanyMetrics) : list Q :=
  if truthy (Price metrics) && truthy (Earnings metrics) && positive (Earnings metrics)
  then [(get (Price metrics) / get (Earnings metrics))%Q]
  else [].

(** What one comparable adds to [ev_ebitda_ratios]; the enterprise value is
    the market cap. *)
Definition ev_ebitda_ratio (metrics : CompanyMetrics) : list Q :=
  if truthy (Ebitda metrics) && positive (Ebitda metrics) && truthy (MarketCap metrics)
  then let enterprise_value := get (MarketCap metrics) in
       [(enterprise_value / get (Ebitda metrics))%Q]
  else [].

Definition NA_NEGATIVE_EARNINGS : string := "N/A (Negative Earnings)".

(** The estimates, from the target's metrics and the two medians: the
    dictionary [fair_values]. *)
Definition estimate_fair_values (target_metrics : CompanyMetrics)
    (median_pe median_ev_ebitda : option Q) : gmap string pyval :=
  let fair_values : gmap string pyval :=
    if truthy (Ebitda target_metrics) && truthy median_ev_ebitda
       && truthy (SharesOutstanding target_metrics)
    then
      let fair_value_ev_ebitda := (get median_ev_ebitda * get (Ebitda target_metrics))%Q in
      <["EV/EBITDA" := PNum (fair_value_ev_ebitda / get (SharesOutstanding target_metrics))]> ∅
    else ∅ in
  if truthy (Earnings target_metrics) && positive (Earnings target_metrics)
     && truthy median_pe && truthy (SharesOutstanding target_metrics)
  then
    let fair_value_pe := (get median_pe * get (Earnings target_metrics))%Q in
    <["P/E" := PNum (fair_value_pe / get (SharesOutstanding target_metrics))]> fair_values
  else <["P/E" := PStr NA_NEGATIVE_EARNINGS]> fair_values.

(** The multiples of a dictionary of comparables and the estimates they give. *)
Definition value_against (target_metrics : CompanyMetrics)
    (comparable_metrics : list (string * CompanyMetrics)) : gmap string pyval :=
  let pe_ratios := flat_map (fun kv => pe_ratio kv.2) comparable_metrics in
  let ev_ebitda_ratios := flat_map (fun kv => ev_ebitda_ratio kv.2) comparable_metrics in
  estimate_fair_values target_metrics (median_opt pe_ratios) (median_opt ev_ebitda_ratios).

(** [d[k] = v] on a dictionary kept in insertion order. *)
Definition dict_set {V} (k : string) (v : V) (d : list (string * V))
  : list (string * V) :=
  if existsb (fun kv => String.eqb kv.1 k) d
  then map (fun kv => if String.eqb kv.1 k then (kv.1, v) else kv) d
  else d ++ [(k, v)].

(** ** Persistence *)

(** [pd.DataFrame(data).dropna(how='all')] *)
Definition dropna_all (data : list ResultRow) : list ResultRow :=
  List.filter (fun r => negb (all_null r)) data.

Definition append_to_excel (data : list ResultRow) (file_name : string) : M unit :=
  found <- path_exists file_name ;;
  df <- (if found : bool then read_excel file_name else ret []) ;;
  let new_data := dropna_all data in
  let df := df ++ new_data in
  to_excel df file_name ;;
  print MsgAppended.

(** The rows [main] hands to the store. *)
Definition data_to_save (target_ticker : string) (fair_values : gmap string pyval)
    (target_metrics : CompanyMetrics) : list ResultRow :=
  [ {| Stock := PStr target_ticker; Metric := PStr "EV/EBITDA Fair Value";
       Value := default (PStr "N/A") (fair_values !! "EV/EBITDA") |};
    {| Stock := PStr target_ticker; Metric := PStr "P/E Fair Value";
       Value := default (PStr "N/A") (fair_values !! "P/E") |};
    {| Stock := PStr target_ticker; Metric := PStr "Current Price";
       Value := of_num (Price target_metrics) |} ].

(** ** The pipeline, over a data provider *)

Section Pipeline.

(** [provider ticker] is what [yf.Ticker(ticker).info] gives: the record,
    or the exception of the lookup. The ticker is a Python value, [None]
    included. *)
Variable provider : option string -> res Info.

Definition ticker_info (ticker : option string) : M Info :=
  emit (EvFetch ticker) ;; lift (provider ticker).

(** The prompt of [search_stock] and what it returns. *)
Definition confirm (stock_input : string) : M (option string) :=
  answer <- input AskConfirmation ;;
  let confirmation := PyStr.lower (PyStr.strip answer) in
  if String.eqb confirmation "y" then ret (Some stock_input) else ret None.

Definition search_stock (stock_input : string) : M (option string) :=
  try_except
    (info <- ticker_info (Some stock_input) ;;
     match shortName info with
     | Some name =>
         print (MsgFound name stock_input) ;;
         confirm stock_input
     | None =>
         if shortName_null info
         then print (MsgFoundUnnamed stock_input) ;; confirm stock_input
         else print (MsgNoFullData stock_input) ;; ret None
     end)
    (fun e => print (MsgFetchError stock_input e) ;; ret None).

Definition fetch_metrics_and_description (ticker : option string)
  : M CompanyMetrics :=
  info <- ticker_info ticker ;;
  ret (metrics_of_info info).

(** The [for peer in peer_companies] loop; [comparables] is the list
    accumulated so far. *)
Fixpoint screen_peers (target_keywords : list string) (target_market_cap : option Q)
    (tolerance keyword_min_threshold keyword_max_threshold : Q)
    (peer_companies comparables : list string) : M (list string) :=
  match peer_companies with
  | [] => ret comparables
  | peer :: rest =>
      peer_metrics <- fetch_metrics_and_description (Some peer) ;;
      peer_keywords <- lift (extract_keywords_opt (Description peer_metrics)
                                                  (CompanyName peer_metrics)) ;;
      print (MsgCheckingPeer peer (MarketCap peer_metrics) (Industry peer_metrics)) ;;
      match_percentage <- lift (keyword_match_percentage target_keywords peer_keywords) ;;
      print (MsgMatchPercentage peer match_percentage) ;;
      v <- lift (screen_peer (MarketCap peer_metrics) target_market_cap tolerance
                   keyword_min_threshold keyword_max_threshold match_percentage) ;;
      comparables <-
        match v with
        | AcceptPrimary => ret (comparables ++ [peer])
        | AcceptFallback =>
            print (MsgAddedOnKeywords peer) ;;
            ret (comparables ++ [peer])
        | Reject => ret comparables
        end ;;
      screen_peers target_keywords target_market_cap tolerance
        keyword_min_threshold keyword_max_threshold rest comparables
  end.

Definition find_comparables (target_metrics : CompanyMetrics)
    (peer_companies : list string)
    (tolerance keyword_min_threshold keyword_max_threshold : Q)
  : M (list string) :=
  let target_description := Description target_metrics in
  let target_market_cap := MarketCap target_metrics in
  let company_name := CompanyName target_metrics in
  target_keywords <- lift (extract_keywords_opt target_description company_name) ;;
  print (MsgTargetKeywords target_keywords) ;;
  screen_peers target_keywords target_market_cap tolerance
    keyword_min_threshold keyword_max_threshold peer_companies [].

(** [{ticker: fetch_metrics_and_description(ticker) for ticker in comparables}] *)
Fixpoint fetch_comparables (comparables : list string)
    (comparable_metrics : list (string * CompanyMetrics))
  : M (list (string * CompanyMetrics)) :=
  match comparables with
  | [] => ret comparable_metrics
  | ticker :: rest =>
      metrics <- fetch_metrics_and_description (Some ticker) ;;
      fetch_comparables rest (dict_set ticker metrics comparable_metrics)
  end.

Definition comparable_company_analysis (target_ticker : string)
    (comparables : list string) : M (gmap string pyval * CompanyMetrics) :=
  target_metrics <- fetch_metrics_and_description (Some target_ticker) ;;
  comparable_metrics <- fetch_comparables comparables [] ;;
  let pe_ratios := flat_map (fun kv => pe_ratio kv.2) comparable_metrics in
  let ev_ebitda_ratios := flat_map (fun kv => ev_ebitda_ratio kv.2) comparable_metrics in
  print (MsgPERatios pe_ratios) ;;
  print (MsgEVRatios ev_ebitda_ratios) ;;
  let median_pe := median_opt pe_ratios in
  let median_ev_ebitda := median_opt ev_ebitda_ratios in
  print (MsgMedians median_pe median_ev_ebitda) ;;
  ret (estimate_fair_values target_metrics median_pe median_ev_ebitda, target_metrics).

Fixpoint print_items (items : list (string * pyval)) : M unit :=
  match items with
  | [] => ret tt
  | (key, value) :: rest => print (MsgItem key value) ;; print_items rest
  end.

(** [fair_values.items()]: the code inserts "EV/EBITDA" before "P/E". *)
Definition fair_values_items (fair_values : gmap string pyval)
  : list (string * pyval) :=
  omap (fun key => (fun value => (key, value)) <$> fair_values !! key)
       ["EV/EBITDA"; "P/E"].

Definition val_truthy (v : option pyval) : bool :=
  match v with
  | Some (PNum q) => negb (Qeq_bool q 0)
  | Some (PStr s) => negb (String.eqb s "")
  | _ => false
  end.

Definition num_of (v : option pyval) : res Q :=
  match v with
  | Some (PNum q) => Ok q
  | Some _ => Raise TypeError
  | None => Raise KeyError
  end.

Definition is_na (v : option pyval) : bool :=
  match v with
  | Some (PStr s) => String.eqb s NA_NEGATIVE_EARNINGS
  | _ => false
  end.

(** [(fair_value - price) / price * 100], behind the truth test of the price. *)
Definition percentage_difference (fair_value price : Q) : Q :=
  ((fair_value - price) / price * 100)%Q.

(** The body of [if target_ticker:] in [main]. *)
Definition report_and_save (target_ticker : string) (comparables : list string)
  : M unit :=
  r <- comparable_company_analysis target_ticker comparables ;;
  let fair_values := r.1 in
  let target_metrics := r.2 in
  print (MsgTargetHeader target_ticker) ;;
  print_items (metrics_items target_metrics) ;;
  print MsgFairValuesHeader ;;
  print_items (fair_values_items fair_values) ;;
  (if val_truthy (fair_values !! "EV/EBITDA") && truthy (Price target_metrics)
   then fv <- lift (num_of (fair_values !! "EV/EBITDA")) ;;
        print (MsgEVDifference fv (percentage_difference fv (get (Price target_metrics))))
   else ret tt) ;;
  (if negb (is_na (fair_values !! "P/E")) && truthy (Price target_metrics)
   then fv <- lift (num_of (fair_values !! "P/E")) ;;
        print (MsgPEDifference fv (percentage_difference fv (get (Price target_metrics))))
   else ret tt) ;;
  let data_to_save := data_to_save target_ticker fair_values target_metrics in
  append_to_excel data_to_save EXCEL_FILE.

Definition PEER_COMPANIES : list string := ["ADM"; "BG"; "INGR"; "LANC"; "HRL"].

(** [if target_ticker:] on a value that is [None] or a string. *)
Definition ticker_truthy (target_ticker : option string) : option string :=
  match target_ticker with
  | Some EmptyString => None
  | t => t
  end.

Definition main : M unit :=
  line <- input AskTicker ;;
  let stock_input := PyStr.strip line in
  target_ticker <- search_stock stock_input ;;
  target_metrics <- fetch_metrics_and_description target_ticker ;;
  let peer_companies := PEER_COMPANIES in
  comparables <- find_comparables target_metrics peer_companies (3 # 4) 11 19 ;;
  match comparables with
  | [] => print (MsgNoComparables target_ticker)
  | _ =>
      match ticker_truthy target_ticker with
      | Some t => report_and_save t comparables
      | None => print MsgNoValidStock
      end
  end.

End Pipeline.

(** ** A concrete market, used to run the pipeline *)

Module Scenario.

Definition company (name summary : string) (price earnings ebitda_ cap shares : Q)
  : Info :=
  {| shortName := Some name;
     shortName_null := false;
     currentPrice := Some price;
     netIncomeToCommon := Some earnings;
     ebitda := Some ebitda_;
     totalRevenue := None;
     marketCap := Some cap;
     sharesOutstanding := Some shares;
     industry := Some "Packaged Foods";
     longBusinessSummary := Some summary |}.

Definition TGT : Info :=
  company "Target Foods"
    "Target Foods produces packaged snacks, frozen meals, sauces, cereals, beverages and spreads for retail."
    50 50000000 100000000 1000000000 10000000.

Definition ADM : Info :=
  company "Archer"
    "Archer processes oilseeds, corn and wheat into packaged ingredients for retail."
    100 10 1000000000 10000000000 500000000.

Definition BG : Info :=
  company "Bunge" "Bunge trades grains and sells frozen sauces."
    60 5 100000000 1200000000 140000000.

Definition INGR : Info :=
  company "Ingredion"
    "Ingredion makes sweeteners, starches, cereals, beverages and snacks ingredients."
    130 8 90000000 1000000000 65000000.

Definition LANC : Info :=
  company "Lancaster" "Lancaster bakes." 190 4 30000000 900000000 27000000.

Definition HRL : Info :=
  company "Hormel" "Hormel sells meals." 30 9 120000000 1100000000 540000000.

Definition listing : list (string * Info) :=
  [ ("TGT", TGT); ("ADM", ADM); ("BG", BG); ("INGR", INGR); ("LANC", LANC);
    ("HRL", HRL) ].

Fixpoint lookup_listing (ticker : string) (l : list (string * Info)) : option Info :=
  match l with
  | [] => None
  | (k, i) :: r => if String.eqb k ticker then Some i else lookup_listing ticker r
  end.

(** A provider that knows the listing, is out of reach for the tickers in
    [down], and answers [on_none] to the ticker [None]. *)
Definition market (down : list string) (on_none : res Info)
    (ticker : option string) : res Info :=
  match ticker with
  | None => on_none
  | Some t =>
      if existsb (String.eqb t) down then Raise (ProviderError "connection lost")
      else match lookup_listing t listing with
           | Some i => Ok i
           | None => Raise (ProviderError "unknown ticker")
           end
  end.

Definition no_ticker : res Info := Raise AttributeError.

(** The same market when the provider has no EBITDA for the target. *)
Definition TGT_no_ebitda : Info :=
  {| shortName := shortName TGT; shortName_null := shortName_null TGT;
     currentPrice := currentPrice TGT;
     netIncomeToCommon := netIncomeToCommon TGT; ebitda := None;
     totalRevenue := totalRevenue TGT; marketCap := marketCap TGT;
     sharesOutstanding := sharesOutstanding TGT; industry := industry TGT;
     longBusinessSummary := longBusinessSummary TGT |}.

Definition market_no_ebitda (ticker : option string) : res Info :=
  match ticker with
  | Some t => if String.eqb t "TGT" then Ok TGT_no_ebitda
              else market [] no_ticker ticker
  | None => no_ticker
  end.

Definition start (lines : list string) : world := World lines [] ∅.

End Scenario.

(** ** Notions used to state the properties *)

(** A word without whitespace. *)
Definition spaceless (w : string) : Prop :=
  PyStr.any_char PyStr.is_space w = false.

(** A metrics record with one field replaced. *)
Definition with_Ebitda (v : option Q) (m : CompanyMetrics) : CompanyMetrics :=
  {| Price := Price m; Earnings := Earnings m; Ebitda := v; Revenue := Revenue m;
     MarketCap := MarketCap m; SharesOutstanding := SharesOutstanding m;
     Industry := Industry m; Description := Description m;
     CompanyName := CompanyName m |}.

Definition with_Price (v : option Q) (m : CompanyMetrics) : CompanyMetrics :=
  {| Price := v; Earnings := Earnings m; Ebitda := Ebitda m; Revenue := Revenue m;
     MarketCap := MarketCap m; SharesOutstanding := SharesOutstanding m;
     Industry := Industry m; Description := Description m;
     CompanyName := CompanyName m |}.

Definition with_MarketCap (v : option Q) (m : CompanyMetrics) : CompanyMetrics :=
  {| Price := Price m; Earnings := Earnings m; Ebitda := Ebitda m; Revenue := Revenue m;
     MarketCap := v; SharesOutstanding := SharesOutstanding m;
     Industry := Industry m; Description := Description m;
     CompanyName := CompanyName m |}.

Definition with_SharesOutstanding (v : option Q) (m : CompanyMetrics) : CompanyMetrics :=
  {| Price := Price m; Earnings := Earnings m; Ebitda := Ebitda m; Revenue := Revenue m;
     MarketCap := MarketCap m; SharesOutstanding := v;
     Industry := Industry m; Description := Description m;
     CompanyName := CompanyName m |}.

(** Rows of the results table. *)
Module Rows.

Definition ev : ResultRow :=
  {| Stock := PStr "TGT"; Metric := PStr "EV/EBITDA Fair Value"; Value := PNum 110 |}.

Definition price : ResultRow :=
  {| Stock := PStr "TGT"; Metric := PStr "Current Price"; Value := PNone |}.

Definition blank : ResultRow :=
  {| Stock := PNone; Metric := PNone; Value := PNone |}.

(** The row [main] stores when there is no EV/EBITDA estimate, and the row
    read back from it. *)
Definition ev_na : ResultRow :=
  {| Stock := PStr "TGT"; Metric := PStr "EV/EBITDA Fair Value"; Value := PStr "N/A" |}.

Definition ev_lost : ResultRow :=
  {| Stock := PStr "TGT"; Metric := PStr "EV/EBITDA Fair Value"; Value := PNone |}.

(** The P/E estimate of the target: the median of the multiples 10 and 12,
    times its earnings, per share, that is 55. *)
Definition pe : ResultRow :=
  {| Stock := PStr "TGT"; Metric := PStr "P/E Fair Value";
     Value := PNum (get (median_opt [(100 / 10)%Q; (60 / 5)%Q])
                    * 50000000 / 10000000) |}.

Definition current : ResultRow :=
  {| Stock := PStr "TGT"; Metric := PStr "Current Price"; Value := PNum 50 |}.

End Rows.

(** [R] relates the world before a command to the world after it. *)
Definition preserves (R : world -> world -> Prop) {A} (m : M A) : Prop :=
  forall w : world, R w (m w).1.

(** The files stay as they are. *)
Definition same_files (w w' : world) : Prop := w_files w' = w_files w.

(** The trace only grows. *)
Definition trace_grows (w w' : world) : Prop :=
  exists later : list event, w_trace w' = w_trace w ++ later.

(** Events of one kind in a trace. *)
Definition is_fetch (ev : event) : bool :=
  match ev with EvFetch _ => true | _ => false end.

Definition printed (m : message) (ev : event) : bool :=
  match ev, m with
  | EvPrint MsgNoValidStock, MsgNoValidStock => true
  | EvPrint (MsgNoComparables None), MsgNoComparables None => true
  | _, _ => false
  end.

(** Every character of a string passes a test. *)
Fixpoint all_chars (p : ascii -> bool) (s : string) : bool :=
  match s with
  | EmptyString => true
  | String c r => p c && all_chars p r
  end.

(** The letters a to z. *)
Definition is_lower_az (c : ascii) : bool := PyStr.between 97 122 c.

(** A string with its letters A to Z turned into a to z and every other
    character as it is: two strings with the same image differ only in the
    case of those letters. *)
Definition ascii_lower_char (c : ascii) : ascii :=
  if PyStr.between 65 90 c then ascii_of_N (PyStr.code c + 32) else c.

Fixpoint ascii_lower (s : string) : string :=
  match s with
  | EmptyString => EmptyString
  | String c r => String (ascii_lower_char c) (ascii_lower r)
  end.

(** The fetch of a ticker given as a string. *)
Definition fetch_of (ticker : string) : event := EvFetch (Some ticker).

(** What one turn of the screening loop computes for a peer, as a function of
    the provider's answer alone: the match percentage with the target. *)
Definition peer_percentage (provider : option string -> res Info)
    (target_keywords : list string) (peer : string) : res Q :=
  res_bind (provider (Some peer))
    (fun info =>
       let peer_metrics := metrics_of_info info in
       res_bind (extract_keywords_opt (Description peer_metrics)
                                      (CompanyName peer_metrics))
         (fun peer_keywords =>
            keyword_match_percentage target_keywords peer_keywords)).

(** The band test on a percentage that may have raised. *)
Definition in_band_res (kmin kmax : Q) (r : res Q) : bool :=
  match r with
  | inr match_percentage => in_band kmin kmax match_percentage
  | inl _ => false
  end.

(** The verdict of one turn of the screening loop, as a function of the
    provider's answer alone. *)
Definition peer_verdict (provider : option string -> res Info)
    (target_keywords : list string) (target_market_cap : option Q)
    (tolerance kmin kmax : Q) (peer : string) : res verdict :=
  res_bind (provider (Some peer))
    (fun info =>
       let peer_metrics := metrics_of_info info in
       res_bind (extract_keywords_opt (Description peer_metrics)
                                      (CompanyName peer_metrics))
         (fun peer_keywords =>
            res_bind (keyword_match_percentage target_keywords peer_keywords)
              (fun match_percentage =>
                 screen_peer (MarketCap peer_metrics) target_market_cap tolerance
                   kmin kmax match_percentage))).

(** A peer whose verdict is an acceptance. *)
Definition peer_accepted (provider : option string -> res Info)
    (target_keywords : list string) (target_market_cap : option Q)
    (tolerance kmin kmax : Q) (peer : string) : bool :=
  match peer_verdict provider target_keywords target_market_cap tolerance kmin kmax peer with
  | inr v => accepted v
  | inl _ => false
  end.

(** The provider calls of a trace, in order. *)
Definition fetches (w : world) : list event := List.filter is_fetch (w_trace w).

(** A provider record without its business summary. *)
Definition silent (i : Info) : Info :=
  {| shortName := shortName i; shortName_null := shortName_null i;
     currentPrice := currentPrice i;
     netIncomeToCommon := netIncomeToCommon i; ebitda := ebitda i;
     totalRevenue := totalRevenue i; marketCap := marketCap i;
     sharesOutstanding := sharesOutstanding i; industry := industry i;
     longBusinessSummary := None |}.

(** An entry of the comparables' dictionary that carries the provider's
    record for its ticker. *)
Definition faithful_entry (provider : option string -> res Info)
    (kv : string * CompanyMetrics) : Prop :=
  exists info : Info, provider (Some kv.1) = Ok info /\ kv.2 = metrics_of_info info.


Definition with_Earnings (v : option Q) (m : CompanyMetrics) : CompanyMetrics :=
  {| Price := Price m; Earnings := v; Ebitda := Ebitda m; Revenue := Revenue m;
     MarketCap := MarketCap m; SharesOutstanding := SharesOutstanding m;
     Industry := Industry m; Description := Description m;
     CompanyName := CompanyName m |}.

(** * Properties *)

(** ** Strings and keyword extraction *)

Lemma is_space_lower_char (c : ascii) :
  PyStr.is_space (PyStr.lower_char c) = PyStr.is_space c.
Proof. destruct c as [[] [] [] [] [] [] [] []]; reflexivity. Qed.

Lemma any_space_lower (s : string) :
  PyStr.any_char PyStr.is_space (PyStr.lower s)
  = PyStr.any_char PyStr.is_space s.
Proof.
  induction s as [|c r IH]; simpl; [reflexivity|].
  now rewrite is_space_lower_char, IH.
Qed.

Lemma any_char_app (p : ascii -> bool) (a b : string) :
  PyStr.any_char p (a +:+ b) = PyStr.any_char p a || PyStr.any_char p b.
Proof.
  induction a as [|c r IH]; simpl; [reflexivity|].
  now rewrite IH, orb_assoc.
Qed.

Lemma flush_spaceless (cur : string) :
  spaceless cur -> Forall spaceless (PyStr.flush cur).
Proof. destruct cur; simpl; auto. Qed.

(** A word returned by [split] holds no whitespace. *)
Lemma split_from_spaceless (s cur : string) :
  spaceless cur -> Forall spaceless (PyStr.split_from cur s).
Proof.
  revert cur; induction s as [|c r IH]; intros cur Hcur; simpl.
  - now apply flush_spaceless.
  - destruct (PyStr.is_space c) eqn:Hc.
    + apply Forall_app; split; [now apply flush_spaceless|].
      apply IH; reflexivity.
    + apply IH. unfold spaceless. rewrite any_char_app; simpl.
      now rewrite Hcur, Hc.
Qed.

Lemma description_words_spaceless (description : string) :
  Forall spaceless (description_words description).
Proof. apply split_from_spaceless; reflexivity. Qed.

Lemma eqb_spaceless (w n : string) :
  spaceless w -> PyStr.any_char PyStr.is_space n = true -> String.eqb w n = false.
Proof.
  intros Hw Hn. destruct (String.eqb w n) eqn:E; [|reflexivity].
  apply String.eqb_eq in E; subst. unfold spaceless in Hw. congruence.
Qed.

(** With a company name of several words the name test of the comprehension
    never fires: the words compared with it hold no whitespace. *)
Lemma multiword_name_never_removed (description company_name : string) :
  PyStr.any_char PyStr.is_space company_name = true ->
  extract_keywords description company_name
  = List.filter (fun word => bool_decide (word ∉ STOPWORDS) && (3 <? PyStr.len word)%nat)
      (description_words description).
Proof.
  intros Hname. unfold extract_keywords.
  pose proof (description_words_spaceless description) as Hall.
  induction Hall as [|w ws Hw _ IH]; simpl; [reflexivity|].
  unfold keep_word at 1.
  rewrite (eqb_spaceless w (PyStr.lower company_name) Hw)
    by (now rewrite any_space_lower).
  simpl. rewrite andb_true_r.
  destruct (bool_decide (w ∉ STOPWORDS) && (3 <? PyStr.len w)%nat);
    now rewrite IH.
Qed.

(** C2 — on the description "Acme Corp makes widgets" of the company
    "Acme Corp", the extraction returns "acme" and "corp" among the
    keywords: no single word equals the lowercased name "acme corp", so the
    name is not removed. *)
Theorem extract_keywords_acme_corp :
  extract_keywords "Acme Corp makes widgets" "Acme Corp"
  = ["acme"; "corp"; "makes"; "widgets"].
Proof. vm_compute. reflexivity. Qed.

Lemma count_occ_filter {A} (dec : forall x y : A, {x = y} + {x <> y})
    (f : A -> bool) (l : list A) (x : A) :
  count_occ dec (List.filter f l) x = if f x then count_occ dec l x else 0%nat.
Proof.
  induction l as [|y l IH]; simpl.
  - now destruct (f x).
  - destruct (f y) eqn:Fy; simpl; destruct (dec y x) as [->|Hne].
    + rewrite IH, Fy. reflexivity.
    + exact IH.
    + rewrite IH, Fy. reflexivity.
    + exact IH.
Qed.

Lemma filter_sublist {A} (f : A -> bool) (l : list A) :
  List.filter f l `sublist_of` l.
Proof.
  induction l as [|x l IH]; simpl; [constructor|].
  destruct (f x); now constructor.
Qed.

(** C8, as the code has it — the extraction returns a list, not a set: it
    is a subsequence of the lowercased alphabetic words of the description,
    in their order, with one entry per occurrence. A word that passes the
    three tests occurs in the result as many times as among the words of
    the description, any other word not at all. *)
Theorem extract_keywords_occurrences (description company_name : string) :
  extract_keywords description company_name
    `sublist_of` description_words description
  /\ forall word : string,
       count_occ string_dec (extract_keywords description company_name) word
       = if keep_word company_name word
         then count_occ string_dec (description_words description) word
         else 0%nat.
Proof.
  split; [apply filter_sublist|]. intros word. apply count_occ_filter.
Qed.

(** C8, as stated, fails: a keyword repeated in the description is repeated
    in the result. *)
Lemma extract_keywords_repeats :
  extract_keywords "Packaged foods and frozen foods" "Acme"
  = ["packaged"; "foods"; "frozen"; "foods"]
  /\ ~ NoDup (extract_keywords "Packaged foods and frozen foods" "Acme").
Proof.
  assert (E : extract_keywords "Packaged foods and frozen foods" "Acme"
              = ["packaged"; "foods"; "frozen"; "foods"])
    by (vm_compute; reflexivity).
  split; [exact E|]. rewrite E. intros H.
  apply NoDup_cons_1_2, NoDup_cons in H. destruct H as [Hnot _].
  apply Hnot. set_solver.
Qed.

(** ** Keyword match percentage *)

Lemma size_list_to_set_le (l : list string) :
  (size (list_to_set l : gset string) ≤ length l)%nat.
Proof.
  induction l as [|x l IH].
  - change (list_to_set [] : gset string) with (∅ : gset string).
    rewrite size_empty. simpl. lia.
  - rewrite list_to_set_cons, size_union_alt, size_singleton. simpl.
    assert (size (list_to_set l ∖ {[x]} : gset string) ≤ size (list_to_set l : gset string))%nat
      by (apply subseteq_size; set_solver).
    lia.
Qed.

Lemma overlap_le_target (target_keywords peer_keywords : list string) :
  (size (overlap target_keywords peer_keywords) ≤ length target_keywords)%nat.
Proof.
  etrans; [|apply size_list_to_set_le].
  apply subseteq_size. unfold overlap. set_solver.
Qed.

Lemma overlap_nil_r (target_keywords : list string) :
  size (overlap target_keywords []) = 0%nat.
Proof.
  unfold overlap. simpl.
  replace (list_to_set target_keywords ∩ ∅ : gset string) with (∅ : gset string)
    by set_solver.
  apply size_empty.
Qed.

Lemma Qof_nat_pos (n : nat) : (0 < n)%nat -> (0 < Qof_nat n)%Q.
Proof.
  intros H. unfold Qof_nat. rewrite <- (Zlt_Qlt 0). lia.
Qed.

Lemma Qof_nat_le (k n : nat) : (k ≤ n)%nat -> (Qof_nat k <= Qof_nat n)%Q.
Proof.
  intros H. unfold Qof_nat. rewrite <- Zle_Qle. lia.
Qed.

Lemma py_div_nonzero (a b : Q) : ~ (b == 0)%Q -> py_div a b = Ok (a / b)%Q.
Proof.
  intros Hb. unfold py_div.
  destruct (Qeq_bool b 0) eqn:E; [|reflexivity].
  apply Qeq_bool_eq in E. contradiction.
Qed.

(** The share [k / n * 100] of [k] items among [n > 0] lies in [0, 100]. *)
Lemma percentage_bounds (k n : nat) :
  (k ≤ n)%nat -> (0 < n)%nat ->
  (0 <= Qof_nat k / Qof_nat n * 100 /\ Qof_nat k / Qof_nat n * 100 <= 100)%Q.
Proof.
  intros Hkn Hn.
  pose proof (Qof_nat_pos n Hn) as Hpos.
  pose proof (Qof_nat_le k n Hkn) as Hle.
  assert (H0 : (0 <= Qof_nat k)%Q) by (apply (Qof_nat_le 0); lia).
  assert (Hlo : (0 <= Qof_nat k / Qof_nat n)%Q).
  { apply Qle_shift_div_l; [exact Hpos|]. now rewrite Qmult_0_l. }
  assert (Hhi : (Qof_nat k / Qof_nat n <= 1)%Q).
  { apply Qle_shift_div_r; [exact Hpos|]. now rewrite Qmult_1_l. }
  split.
  - apply Qmult_le_0_compat; [exact Hlo|discriminate].
  - apply Qle_trans with (1 * 100)%Q; [|discriminate].
    apply Qmult_le_compat_r; [exact Hhi|discriminate].
Qed.

(** C3, as the code has it — for a target list that is not empty the match
    percentage is the number of distinct keywords common to both lists,
    divided by the length of the target list, times 100; it lies in
    [0, 100]; and with no peer keywords it is 0, whatever the target. *)
Theorem keyword_match_percentage_spec (target_keywords peer_keywords : list string) :
  (target_keywords <> [] ->
   exists p : Q,
     keyword_match_percentage target_keywords peer_keywords = Ok p
     /\ (p == Qof_nat (size (list_to_set target_keywords ∩ list_to_set peer_keywords
                               : gset string))
              / Qof_nat (length target_keywords) * 100)%Q
     /\ (0 <= p)%Q /\ (p <= 100)%Q)
  /\ keyword_match_percentage target_keywords [] = Ok 0%Q.
Proof.
  split; [|reflexivity].
  intros Hne.
  assert (Hlen : (0 < length target_keywords)%nat)
    by (destruct target_keywords; [congruence|simpl; lia]).
  pose proof (percentage_bounds _ _ (overlap_le_target target_keywords peer_keywords) Hlen)
    as [Hlo Hhi].
  destruct peer_keywords as [|w ws].
  - exists 0%Q. split; [reflexivity|].
    split; [|split; discriminate].
    change (list_to_set target_keywords ∩ list_to_set [])
      with (overlap target_keywords []).
    rewrite overlap_nil_r. unfold Qof_nat; simpl.
    unfold Qdiv. now rewrite !Qmult_0_l.
  - unfold keyword_match_percentage.
    rewrite py_div_nonzero.
    + simpl. eexists; split; [reflexivity|].
      split; [reflexivity|]. split; assumption.
    + intros E. apply Qof_nat_pos in Hlen. rewrite E in Hlen.
      now apply Qlt_irrefl in Hlen.
Qed.

(** The two examples of C3: two of four target keywords give 50, no peer
    keyword gives 0. *)
Lemma keyword_match_percentage_spec_witness :
  ["a"; "b"; "c"; "d"] <> []
  /\ exists p : Q,
       keyword_match_percentage ["a"; "b"; "c"; "d"] ["a"; "b"] = Ok p
       /\ (p == 50)%Q /\ (0 <= p)%Q /\ (p <= 100)%Q.
Proof.
  split; [discriminate|].
  destruct (proj1 (keyword_match_percentage_spec ["a"; "b"; "c"; "d"] ["a"; "b"]))
    as (p & Hp & Heq & Hlo & Hhi); [discriminate|].
  exists p. split; [exact Hp|]. split; [|split; assumption].
  rewrite Heq. vm_compute. reflexivity.
Defined.

(** C3, as stated, fails: with an empty target list and a peer list that is
    not empty the division by the target's keyword count raises. *)
Lemma keyword_match_percentage_empty_target :
  keyword_match_percentage [] ["food"] = Raise ZeroDivisionError.
Proof. reflexivity. Qed.

(** ** The acceptance rule of the screener *)

Lemma Qeq_bool_false (q : Q) : ~ (q == 0)%Q -> Qeq_bool q 0 = false.
Proof.
  intros H. destruct (Qeq_bool q 0) eqn:E; [|reflexivity].
  apply Qeq_bool_eq in E. contradiction.
Qed.

(** With a target market cap that is a number other than zero the rule never
    raises, and its outcome is the band test alone. *)
Lemma screen_peer_cases (peer_market_cap : option Q)
    (t tolerance kmin kmax match_percentage : Q) :
  ~ (t == 0)%Q ->
  screen_peer peer_market_cap (Some t) tolerance kmin kmax match_percentage
  = Ok (if in_band kmin kmax match_percentage
        then if truthy peer_market_cap
                && Qle_bool (Qabs (get peer_market_cap - t) / t) tolerance
             then AcceptPrimary else AcceptFallback
        else Reject).
Proof.
  intros Ht. unfold screen_peer, primary_condition, market_cap_deviation.
  destruct (truthy peer_market_cap); simpl.
  - rewrite py_div_nonzero by exact Ht. simpl.
    destruct (Qle_bool _ tolerance), (in_band kmin kmax match_percentage);
      reflexivity.
  - destruct (in_band kmin kmax match_percentage); reflexivity.
Qed.

(** C1, as the code has it — when the target's market cap is a number other
    than zero, a peer is accepted exactly when its match percentage lies in
    [keyword_min_threshold, keyword_max_threshold], whatever the two market
    caps and the tolerance; so at the default thresholds a peer at 15 with
    ten times the target's market cap is accepted and a peer at 25 with the
    target's own market cap is rejected. *)
Theorem screen_peer_band_only (t : Q) :
  ~ (t == 0)%Q ->
  (forall (peer_market_cap : option Q) (tolerance kmin kmax match_percentage : Q),
      exists v : verdict,
        screen_peer peer_market_cap (Some t) tolerance kmin kmax match_percentage = Ok v
        /\ accepted v = in_band kmin kmax match_percentage)
  /\ (exists v : verdict,
        screen_peer (Some (10 * t)%Q) (Some t) (3 # 4) 11 19 15 = Ok v
        /\ accepted v = true)
  /\ screen_peer (Some t) (Some t) (3 # 4) 11 19 25 = Ok Reject.
Proof.
  intros Ht. split; [|split].
  - intros pmc tol kmin kmax mp. rewrite screen_peer_cases by exact Ht.
    eexists; split; [reflexivity|].
    destruct (in_band kmin kmax mp); [|reflexivity].
    destruct (_ && _); reflexivity.
  - rewrite screen_peer_cases by exact Ht.
    eexists; split; [reflexivity|].
    change (in_band 11 19 15) with true. cbv iota.
    destruct (_ && _); reflexivity.
  - rewrite screen_peer_cases by exact Ht. reflexivity.
Qed.

Lemma screen_peer_band_only_witness :
  ~ (1000000000 == 0)%Q
  /\ screen_peer (Some (10 * 1000000000)%Q) (Some 1000000000%Q) (3 # 4) 11 19 15
     = Ok AcceptFallback
  /\ screen_peer (Some 1000000000%Q) (Some 1000000000%Q) (3 # 4) 11 19 25 = Ok Reject.
Proof.
  assert (H : ~ (1000000000 == 0)%Q) by discriminate.
  split; [exact H|]. split.
  - vm_compute. reflexivity.
  - exact (proj2 (proj2 (screen_peer_band_only 1000000000 H))).
Defined.

(** C1, as stated, fails: a target market cap of zero (or [None]) makes the
    rule raise for a peer whose market cap is known, although the match
    percentage lies in the band. *)
Lemma screen_peer_zero_target_cap :
  in_band 11 19 15 = true
  /\ screen_peer (Some 1000000000%Q) (Some 0%Q) (3 # 4) 11 19 15
     = Raise ZeroDivisionError
  /\ screen_peer (Some 1000000000%Q) None (3 # 4) 11 19 15 = Raise TypeError.
Proof. repeat split. Qed.

(** ** Fair values *)

Lemma truthy_Some (q : Q) : ~ (q == 0)%Q -> truthy (Some q) = true.
Proof. intros H. simpl. now rewrite Qeq_bool_false. Qed.

Lemma truthy_zero (z : Q) : (z == 0)%Q -> truthy (Some z) = false.
Proof. intros H. simpl. now rewrite (Qeq_eq_bool _ _ H). Qed.

Lemma truthy_inv (o : option Q) :
  truthy o = true -> exists q : Q, o = Some q /\ ~ (q == 0)%Q.
Proof.
  destruct o as [q|]; simpl; [|discriminate].
  intros H. exists q. split; [reflexivity|].
  intros E. now rewrite (Qeq_eq_bool _ _ E) in H.
Qed.

Lemma positive_Some (q : Q) : (0 < q)%Q -> positive (Some q) = true.
Proof.
  intros H. simpl. unfold Qlt_bool.
  destruct (Qle_bool q 0) eqn:E; [|reflexivity].
  apply Qle_bool_imp_le in E. exfalso. now apply (Qlt_not_le _ _ H).
Qed.

Lemma positive_nonpos (q : Q) : (q <= 0)%Q -> positive (Some q) = false.
Proof.
  intros H. simpl. unfold Qlt_bool.
  now rewrite (proj2 (Qle_bool_iff q 0) H).
Qed.

(** The "EV/EBITDA" entry of the estimates. *)
Lemma ev_ebitda_entry (target_metrics : CompanyMetrics) (median_pe median_ev_ebitda : option Q) :
  estimate_fair_values target_metrics median_pe median_ev_ebitda !! "EV/EBITDA"
  = if truthy (Ebitda target_metrics) && truthy median_ev_ebitda
       && truthy (SharesOutstanding target_metrics)
    then Some (PNum (get median_ev_ebitda * get (Ebitda target_metrics)
                     / get (SharesOutstanding target_metrics)))
    else None.
Proof.
  unfold estimate_fair_values.
  destruct (truthy (Earnings target_metrics) && _ && _ && _);
    rewrite lookup_insert_ne by discriminate;
    destruct (truthy (Ebitda target_metrics) && _ && _);
    first [apply lookup_insert_eq | apply lookup_empty].
Qed.

(** The "P/E" entry of the estimates. *)
Lemma pe_entry (target_metrics : CompanyMetrics) (median_pe median_ev_ebitda : option Q) :
  estimate_fair_values target_metrics median_pe median_ev_ebitda !! "P/E"
  = Some (if truthy (Earnings target_metrics) && positive (Earnings target_metrics)
             && truthy median_pe && truthy (SharesOutstanding target_metrics)
          then PNum (get median_pe * get (Earnings target_metrics)
                     / get (SharesOutstanding target_metrics))
          else PStr NA_NEGATIVE_EARNINGS).
Proof.
  unfold estimate_fair_values.
  destruct (truthy (Earnings target_metrics) && _ && _ && _);
    apply lookup_insert_eq.
Qed.

(** C6, as the code has it — when target Ebitda, the median EV/EBITDA
    multiple and target SharesOutstanding are all present and other than
    zero, the EV/EBITDA fair value per share is
    (median * Ebitda) / SharesOutstanding, and the entry exists only under
    that condition; a median of 8, an Ebitda of 1,000,000 and 500,000
    shares give 16. *)
Theorem ev_ebitda_fair_value (target_metrics : CompanyMetrics)
    (median_pe median_ev_ebitda : option Q) :
  (forall e m s : Q,
      Ebitda target_metrics = Some e -> median_ev_ebitda = Some m ->
      SharesOutstanding target_metrics = Some s ->
      ~ (e == 0)%Q -> ~ (m == 0)%Q -> ~ (s == 0)%Q ->
      estimate_fair_values target_metrics median_pe median_ev_ebitda !! "EV/EBITDA"
      = Some (PNum (m * e / s)))
  /\ (is_Some (estimate_fair_values target_metrics median_pe median_ev_ebitda
                 !! "EV/EBITDA") ->
      exists e m s : Q,
        Ebitda target_metrics = Some e /\ median_ev_ebitda = Some m
        /\ SharesOutstanding target_metrics = Some s
        /\ ~ (e == 0)%Q /\ ~ (m == 0)%Q /\ ~ (s == 0)%Q)
  /\ (Ebitda target_metrics = Some 1000000%Q -> median_ev_ebitda = Some 8%Q ->
      SharesOutstanding target_metrics = Some 500000%Q ->
      exists v : Q,
        estimate_fair_values target_metrics median_pe median_ev_ebitda !! "EV/EBITDA"
        = Some (PNum v) /\ (v == 16)%Q).
Proof.
  rewrite ev_ebitda_entry. split; [|split].
  - intros e m s -> -> -> He Hm Hs.
    now rewrite !truthy_Some by assumption.
  - intros Hsome.
    destruct (truthy (Ebitda target_metrics)) eqn:He; [|now destruct Hsome].
    destruct (truthy median_ev_ebitda) eqn:Hm; [|now destruct Hsome].
    destruct (truthy (SharesOutstanding target_metrics)) eqn:Hs; [|now destruct Hsome].
    apply truthy_inv in He as (e & -> & He).
    apply truthy_inv in Hm as (m & -> & Hm).
    apply truthy_inv in Hs as (s & Hs' & Hs).
    exists e, m, s. rewrite Hs'. repeat split; assumption.
  - intros -> -> ->. eexists; split; [reflexivity|]. reflexivity.
Qed.

Lemma ev_ebitda_fair_value_witness :
  exists v : Q,
    estimate_fair_values
      (with_SharesOutstanding (Some 500000%Q)
         (with_Ebitda (Some 1000000%Q) (metrics_of_info Scenario.TGT)))
      None (Some 8%Q) !! "EV/EBITDA"
    = Some (PNum v) /\ (v == 16)%Q.
Proof.
  exact (proj2 (proj2 (ev_ebitda_fair_value
           (with_SharesOutstanding (Some 500000%Q)
              (with_Ebitda (Some 1000000%Q) (metrics_of_info Scenario.TGT)))
           None (Some 8%Q))) eq_refl eq_refl eq_refl).
Defined.

(** C6, as stated, fails: an Ebitda that is present and equal to zero gives
    no EV/EBITDA entry, where the formula would give 0. *)
Lemma ev_ebitda_zero_ebitda_skipped :
  Ebitda (with_Ebitda (Some 0%Q) (metrics_of_info Scenario.TGT)) = Some 0%Q
  /\ SharesOutstanding (with_Ebitda (Some 0%Q) (metrics_of_info Scenario.TGT))
     = Some 10000000%Q
  /\ estimate_fair_values (with_Ebitda (Some 0%Q) (metrics_of_info Scenario.TGT))
       (Some 11%Q) (Some 8%Q) !! "EV/EBITDA" = None.
Proof. repeat split. Qed.

(** C7, as the code has it — the P/E estimate is the sentinel
    "N/A (Negative Earnings)" whenever target Earnings are absent, zero or
    negative, whatever the medians; with Earnings above zero and a median
    P/E and SharesOutstanding present and other than zero it is
    (median P/E * Earnings) / SharesOutstanding. *)
Theorem pe_fair_value (target_metrics : CompanyMetrics)
    (median_pe median_ev_ebitda : option Q) :
  (forall e : Q,
      Earnings target_metrics = Some e -> (e <= 0)%Q ->
      estimate_fair_values target_metrics median_pe median_ev_ebitda !! "P/E"
      = Some (PStr "N/A (Negative Earnings)"))
  /\ (Earnings target_metrics = None ->
      estimate_fair_values target_metrics median_pe median_ev_ebitda !! "P/E"
      = Some (PStr "N/A (Negative Earnings)"))
  /\ (forall e m s : Q,
        Earnings target_metrics = Some e -> (0 < e)%Q ->
        median_pe = Some m -> ~ (m == 0)%Q ->
        SharesOutstanding target_metrics = Some s -> ~ (s == 0)%Q ->
        estimate_fair_values target_metrics median_pe median_ev_ebitda !! "P/E"
        = Some (PNum (m * e / s))).
Proof.
  rewrite pe_entry. split; [|split].
  - intros e -> He. rewrite positive_nonpos by exact He.
    now rewrite andb_false_r.
  - intros ->. reflexivity.
  - intros e m s -> He -> Hm -> Hs.
    rewrite positive_Some by exact He.
    rewrite !truthy_Some; try assumption; [reflexivity|].
    intros E. rewrite E in He. now apply Qlt_irrefl in He.
Qed.

Lemma pe_fair_value_witness :
  estimate_fair_values (metrics_of_info Scenario.TGT) (Some 11%Q) (Some 10%Q) !! "P/E"
  = Some (PNum (11 * 50000000 / 10000000)).
Proof.
  apply (proj2 (proj2 (pe_fair_value (metrics_of_info Scenario.TGT)
                         (Some 11%Q) (Some 10%Q)))
           50000000%Q 11%Q 10000000%Q);
    first [reflexivity | discriminate].
Defined.

(** C7, as stated, fails: with Earnings above zero, a median P/E and a
    SharesOutstanding that is present but zero, the estimate is the sentinel
    and not a number. *)
Lemma pe_zero_shares_not_applicable :
  Earnings (with_SharesOutstanding (Some 0%Q) (metrics_of_info Scenario.TGT))
  = Some 50000000%Q
  /\ SharesOutstanding (with_SharesOutstanding (Some 0%Q) (metrics_of_info Scenario.TGT))
     = Some 0%Q
  /\ estimate_fair_values
       (with_SharesOutstanding (Some 0%Q) (metrics_of_info Scenario.TGT))
       (Some 11%Q) (Some 10%Q) !! "P/E"
     = Some (PStr "N/A (Negative Earnings)").
Proof. repeat split. Qed.

Lemma Qdiv_neg_pos (a s : Q) : (a < 0)%Q -> (0 < s)%Q -> (a / s < 0)%Q.
Proof.
  intros Ha Hs. apply Qlt_shift_div_r; [exact Hs|]. now rewrite Qmult_0_l.
Qed.

Lemma Qmult_pos_neg (m e : Q) : (0 < m)%Q -> (e < 0)%Q -> (m * e < 0)%Q.
Proof.
  intros Hm He.
  assert (H : (0 < m * - e)%Q).
  { apply Qmult_lt_0_compat; [exact Hm|].
    apply (Qopp_lt_compat e 0) in He. exact He. }
  apply Qopp_lt_compat in H.
  assert (E : (- (m * - e) == m * e)%Q) by ring.
  rewrite E in H. exact H.
Qed.

(** C10 — the presence tests are truth tests. A target Ebitda of zero gives
    the same estimates as an absent one, with no EV/EBITDA entry; a negative
    target Ebitda still gives an EV/EBITDA estimate, which is negative for a
    positive median and share count; and a comparable whose Price is zero
    adds nothing to the P/E sample, one whose MarketCap is zero nothing to
    the EV/EBITDA sample, as with the field absent. *)
Theorem presence_is_truthiness (metrics : CompanyMetrics)
    (median_pe median_ev_ebitda : option Q) (z : Q) :
  (z == 0)%Q ->
  (estimate_fair_values (with_Ebitda (Some z) metrics) median_pe median_ev_ebitda
   = estimate_fair_values (with_Ebitda None metrics) median_pe median_ev_ebitda
   /\ estimate_fair_values (with_Ebitda (Some z) metrics) median_pe median_ev_ebitda
        !! "EV/EBITDA" = None)
  /\ (forall e m s : Q,
        (e < 0)%Q -> (0 < m)%Q -> (0 < s)%Q ->
        median_ev_ebitda = Some m -> SharesOutstanding metrics = Some s ->
        estimate_fair_values (with_Ebitda (Some e) metrics) median_pe median_ev_ebitda
          !! "EV/EBITDA" = Some (PNum (m * e / s))
        /\ (m * e / s < 0)%Q)
  /\ (pe_ratio (with_Price (Some z) metrics) = []
      /\ pe_ratio (with_Price None metrics) = [])
  /\ (ev_ebitda_ratio (with_MarketCap (Some z) metrics) = []
      /\ ev_ebitda_ratio (with_MarketCap None metrics) = []).
Proof.
  intros Hz. split; [|split; [|split]].
  - split.
    + unfold estimate_fair_values. simpl.
      now rewrite (Qeq_eq_bool _ _ Hz).
    + rewrite ev_ebitda_entry. simpl. now rewrite (Qeq_eq_bool _ _ Hz).
  - intros e m s He Hm Hs -> Hshares. split.
    + rewrite ev_ebitda_entry. simpl Ebitda. simpl SharesOutstanding.
      rewrite Hshares.
      rewrite !truthy_Some; [reflexivity| | |].
      * intros E. rewrite E in Hs. now apply Qlt_irrefl in Hs.
      * intros E. rewrite E in Hm. now apply Qlt_irrefl in Hm.
      * intros E. rewrite E in He. now apply Qlt_irrefl in He.
    + apply Qdiv_neg_pos; [|exact Hs]. now apply Qmult_pos_neg.
  - split; unfold pe_ratio; simpl; [|reflexivity].
    now rewrite (Qeq_eq_bool _ _ Hz).
  - split; unfold ev_ebitda_ratio; simpl.
    + rewrite (Qeq_eq_bool _ _ Hz). simpl. now rewrite !andb_false_r.
    + now rewrite !andb_false_r.
Qed.

Lemma presence_is_truthiness_witness :
  (0 == 0)%Q
  /\ estimate_fair_values (with_Ebitda (Some 0%Q) (metrics_of_info Scenario.TGT))
       (Some 11%Q) (Some 10%Q)
     = estimate_fair_values (with_Ebitda None (metrics_of_info Scenario.TGT))
         (Some 11%Q) (Some 10%Q)
  /\ (estimate_fair_values (with_Ebitda (Some (-100000000)%Q) (metrics_of_info Scenario.TGT))
        (Some 11%Q) (Some 10%Q) !! "EV/EBITDA"
      = Some (PNum (10 * -100000000 / 10000000))
      /\ (10 * -100000000 / 10000000 < 0)%Q)
  /\ pe_ratio (with_Price (Some 0%Q) (metrics_of_info Scenario.ADM)) = []
  /\ ev_ebitda_ratio (with_MarketCap (Some 0%Q) (metrics_of_info Scenario.ADM)) = [].
Proof.
  pose proof (presence_is_truthiness (metrics_of_info Scenario.TGT)
                (Some 11%Q) (Some 10%Q) 0%Q (Qeq_refl 0)) as (Ha & Hb & _ & _).
  pose proof (presence_is_truthiness (metrics_of_info Scenario.ADM)
                (Some 11%Q) (Some 10%Q) 0%Q (Qeq_refl 0)) as (_ & _ & Hc & Hd).
  split; [reflexivity|].
  split; [exact (proj1 Ha)|].
  split.
  - apply (Hb (-100000000)%Q 10%Q 10000000%Q); reflexivity.
  - split; [exact (proj1 Hc)|exact (proj1 Hd)].
Defined.

(** ** Persistence *)


(** C9 — the append does not leave the prior rows as they were. A stored
    cell whose text spells a missing value is read back as missing and
    written out empty, and "N/A" is the text [main] itself stores for a
    missing EV/EBITDA estimate. Appending to a store that holds such a row
    keeps the number and the order of the rows and drops the blank row of
    the batch, but the Value "N/A" of the prior row is gone; and of two runs
    of [main] for a target without EBITDA, the second blanks the "N/A" the
    first one stored. *)
Theorem append_to_excel_blanks_na :
  w_files (run (append_to_excel [Rows.blank; Rows.current] EXCEL_FILE)
             (World [] [] {[EXCEL_FILE := [Rows.ev_na; Rows.pe]]})).1 !! EXCEL_FILE
  = Some [Rows.ev_lost; Rows.pe; Rows.current]
  /\ (let once := (run (main Scenario.market_no_ebitda)
                     (Scenario.start ["TGT"; "y"])).1 in
      let twice := (run (main Scenario.market_no_ebitda)
                      (World ["TGT"; "y"] [] (w_files once))).1 in
      w_files once !! EXCEL_FILE = Some [Rows.ev_na; Rows.pe; Rows.current]
      /\ w_files twice !! EXCEL_FILE
         = Some [Rows.ev_lost; Rows.pe; Rows.current;
                 Rows.ev_na; Rows.pe; Rows.current]).
Proof. vm_compute. repeat split. Qed.

(** ** Exceptions through the pipeline *)

Lemma bind_inv {A B} (m : M A) (k : A -> M B) (w : world) :
  (exists w' e, m w = (w', inl e) /\ bind m k w = (w', inl e))
  \/ (exists w' a, m w = (w', inr a) /\ bind m k w = k a w').
Proof.
  unfold bind. destruct (m w) as [w' [e|a]]; [left|right]; eauto.
Qed.

Lemma bind_ok {A B} (m : M A) (k : A -> M B) (w w' : world) (a : A) :
  m w = (w', inr a) -> bind m k w = k a w'.
Proof. intros H. unfold bind. now rewrite H. Qed.

Lemma bind_raise {A B} (m : M A) (k : A -> M B) (w w' : world) (e : exn) :
  m w = (w', inl e) -> bind m k w = (w', inl e).
Proof. intros H. unfold bind. now rewrite H. Qed.

(** Case analysis on the first command of a sequence. *)
Ltac run_bind w' x H :=
  match goal with
  | |- context [bind ?m ?k ?w] =>
      let e := fresh "e" in
      destruct (bind_inv m k w) as [(w' & e & H & ->) | (w' & x & H & ->)]
  end.

(** *** What every command preserves

    [R] relates the world before a command to the world after it. For a
    preorder that printing, prompting and fetching respect, every function of
    the pipeline up to the screening respects it; when rewriting a file
    respects it too, so does the whole of [main]. *)

Section Preserved.

Variable R : world -> world -> Prop.
Hypothesis R_refl : forall w, R w w.
Hypothesis R_trans : forall w1 w2 w3, R w1 w2 -> R w2 w3 -> R w1 w3.

Lemma preserves_ret {A} (a : A) : preserves R (ret a).
Proof. intros w; apply R_refl. Qed.

Lemma preserves_lift {A} (r : res A) : preserves R (lift r).
Proof. intros w; apply R_refl. Qed.

Lemma preserves_path_exists (f : string) : preserves R (path_exists f).
Proof. intros w; apply R_refl. Qed.

Lemma preserves_read_excel (f : string) : preserves R (read_excel f).
Proof. intros w; apply R_refl. Qed.

Lemma preserves_bind {A B} (m : M A) (k : A -> M B) :
  preserves R m -> (forall a, preserves R (k a)) -> preserves R (bind m k).
Proof.
  intros Hm Hk w. specialize (Hm w). unfold bind.
  destruct (m w) as [w' [e|a]]; simpl in *; [exact Hm|].
  eapply R_trans; [exact Hm|apply Hk].
Qed.

Lemma preserves_try_except {A} (m : M A) (h : exn -> M A) :
  preserves R m -> (forall e, preserves R (h e)) -> preserves R (try_except m h).
Proof.
  intros Hm Hh w. specialize (Hm w). unfold try_except.
  destruct (m w) as [w' [e|a]]; simpl in *; [|exact Hm].
  destruct (is_Exception e); [|exact Hm].
  eapply R_trans; [exact Hm|apply Hh].
Qed.

Hypothesis R_emit : forall e : event, preserves R (emit e).
Hypothesis R_input : forall p : prompt, preserves R (input p).

Ltac preserved :=
  repeat match goal with
    | |- preserves R (bind _ _) => apply preserves_bind; [|intros ?]
    | |- preserves R (try_except _ _) => apply preserves_try_except; [|intros ?]
    | |- preserves R (ret _) => apply preserves_ret
    | |- preserves R (lift _) => apply preserves_lift
    | |- preserves R (path_exists _) => apply preserves_path_exists
    | |- preserves R (read_excel _) => apply preserves_read_excel
    | |- preserves R (emit _) => apply R_emit
    | |- preserves R (print _) => apply R_emit
    | |- preserves R (input _) => apply R_input
    | |- preserves R (let _ := _ in _) => cbv zeta
    | |- preserves R (match ?v with _ => _ end) => destruct v
    end.

Variable provider : option string -> res Info.

Lemma preserves_fetch (ticker : option string) :
  preserves R (fetch_metrics_and_description provider ticker).
Proof. unfold fetch_metrics_and_description, ticker_info. preserved. Qed.

Lemma preserves_search_stock (stock_input : string) :
  preserves R (search_stock provider stock_input).
Proof. unfold search_stock, ticker_info, confirm. preserved. Qed.

Lemma preserves_screen_peers (target_keywords : list string)
    (target_market_cap : option Q) (tolerance kmin kmax : Q)
    (peer_companies comparables : list string) :
  preserves R (screen_peers provider target_keywords target_market_cap tolerance
               kmin kmax peer_companies comparables).
Proof.
  revert comparables.
  induction peer_companies as [|peer rest IH]; intros comparables; simpl.
  - preserved.
  - preserved; first [apply preserves_fetch | apply IH].
Qed.

Lemma preserves_find_comparables (target_metrics : CompanyMetrics)
    (peer_companies : list string) (tolerance kmin kmax : Q) :
  preserves R (find_comparables provider target_metrics peer_companies tolerance
               kmin kmax).
Proof.
  unfold find_comparables. preserved. apply preserves_screen_peers.
Qed.

Lemma preserves_fetch_comparables (comparables : list string)
    (comparable_metrics : list (string * CompanyMetrics)) :
  preserves R (fetch_comparables provider comparables comparable_metrics).
Proof.
  revert comparable_metrics.
  induction comparables as [|t rest IH]; intros comparable_metrics; simpl.
  - preserved.
  - preserved; first [apply preserves_fetch | apply IH].
Qed.

Lemma preserves_comparable_company_analysis (target_ticker : string)
    (comparables : list string) :
  preserves R (comparable_company_analysis provider target_ticker comparables).
Proof.
  unfold comparable_company_analysis.
  preserved; first [apply preserves_fetch | apply preserves_fetch_comparables].
Qed.

Lemma preserves_print_items (items : list (string * pyval)) :
  preserves R (print_items items).
Proof.
  induction items as [|[key value] rest IH]; simpl; preserved; exact IH.
Qed.

Hypothesis R_to_excel :
  forall (df : list ResultRow) (f : string), preserves R (to_excel df f).

Lemma preserves_append_to_excel (data : list ResultRow) (file_name : string) :
  preserves R (append_to_excel data file_name).
Proof. unfold append_to_excel. preserved. apply R_to_excel. Qed.

Lemma preserves_report_and_save (target_ticker : string)
    (comparables : list string) :
  preserves R (report_and_save provider target_ticker comparables).
Proof.
  unfold report_and_save.
  preserved;
    first [ apply preserves_comparable_company_analysis
          | apply preserves_print_items
          | apply preserves_append_to_excel ].
Qed.

(** What [main] does once the target's metrics are fetched. *)
Lemma preserves_screen_and_report (target_ticker : option string)
    (target_metrics : CompanyMetrics) :
  preserves R
    (comparables <- find_comparables provider target_metrics PEER_COMPANIES
                      (3 # 4) 11 19 ;;
     match comparables with
     | [] => print (MsgNoComparables target_ticker)
     | _ =>
         match ticker_truthy target_ticker with
         | Some t => report_and_save provider t comparables
         | None => print MsgNoValidStock
         end
     end).
Proof.
  preserved;
    first [ apply preserves_find_comparables
          | apply preserves_report_and_save ].
Qed.

Lemma preserves_main : preserves R (main provider).
Proof.
  unfold main.
  preserved;
    first [ apply preserves_search_stock
          | apply preserves_fetch
          | apply preserves_find_comparables
          | apply preserves_report_and_save ].
Qed.

End Preserved.

Lemma same_files_refl (w : world) : same_files w w.
Proof. reflexivity. Qed.

Lemma same_files_trans (w1 w2 w3 : world) :
  same_files w1 w2 -> same_files w2 w3 -> same_files w1 w3.
Proof. unfold same_files; congruence. Qed.

Lemma same_files_emit (e : event) : preserves same_files (emit e).
Proof. intros w; reflexivity. Qed.


Lemma trace_grows_refl (w : world) : trace_grows w w.
Proof. exists []. now rewrite app_nil_r. Qed.

Lemma trace_grows_trans (w1 w2 w3 : world) :
  trace_grows w1 w2 -> trace_grows w2 w3 -> trace_grows w1 w3.
Proof.
  intros [l1 H1] [l2 H2]. exists (l1 ++ l2). now rewrite H2, H1, app_assoc.
Qed.

Lemma trace_grows_emit (e : event) : preserves trace_grows (emit e).
Proof. intros w. now exists [e]. Qed.

Lemma trace_grows_input (p : prompt) : preserves trace_grows (input p).
Proof.
  intros w. exists [EvInput p]. unfold input. now destruct (w_stdin w).
Qed.

Lemma trace_grows_to_excel (df : list ResultRow) (f : string) :
  preserves trace_grows (to_excel df f).
Proof. intros w. exists []. simpl. now rewrite app_nil_r. Qed.

Section PipelineFacts.

Variable provider : option string -> res Info.

Lemma ticker_info_run (ticker : option string) (w : world) :
  ticker_info provider ticker w
  = (World (w_stdin w) (w_trace w ++ [EvFetch ticker]) (w_files w), provider ticker).
Proof. reflexivity. Qed.

Lemma fetch_run (ticker : option string) (w : world) :
  fetch_metrics_and_description provider ticker w
  = (World (w_stdin w) (w_trace w ++ [EvFetch ticker]) (w_files w),
     res_bind (provider ticker) (fun info => Ok (metrics_of_info info))).
Proof.
  unfold fetch_metrics_and_description, bind. rewrite ticker_info_run.
  now destruct (provider ticker).
Qed.



Lemma keeps_files_fetch (ticker : option string) (w : world) :
  w_files (fetch_metrics_and_description provider ticker w).1 = w_files w.
Proof. now rewrite fetch_run. Qed.

Lemma keeps_files_find_comparables (target_metrics : CompanyMetrics)
    (peer_companies : list string) (tolerance kmin kmax : Q) (w : world) :
  w_files (find_comparables provider target_metrics peer_companies tolerance
             kmin kmax w).1 = w_files w.
Proof.
  exact (preserves_find_comparables same_files same_files_refl same_files_trans
           same_files_emit provider target_metrics
           peer_companies tolerance kmin kmax w).
Qed.

Lemma main_trace_grows (w : world) : trace_grows w (main provider w).1.
Proof.
  exact (preserves_main trace_grows trace_grows_refl trace_grows_trans
           trace_grows_emit trace_grows_input provider trace_grows_to_excel w).
Qed.



End PipelineFacts.

Section RunFacts.

Variable provider : option string -> res Info.



End RunFacts.

(** ** The screening loop *)

Lemma lift_inv {A} (r : res A) (w w' : world) (a : A) :
  lift r w = (w', inr a) -> w' = w /\ r = Ok a.
Proof. unfold lift. intros H. now inversion H. Qed.

Lemma print_inv (m : message) (w w' : world) (u : unit) :
  print m w = (w', inr u) -> fetches w' = fetches w /\ w_files w' = w_files w
                             /\ w_stdin w' = w_stdin w.
Proof.
  unfold print, emit. intros H. inversion H; subst. unfold fetches. simpl.
  rewrite List.filter_app. simpl. now rewrite app_nil_r.
Qed.

Lemma fetch_inv (provider : option string -> res Info) (ticker : option string)
    (w w' : world) (metrics : CompanyMetrics) :
  fetch_metrics_and_description provider ticker w = (w', inr metrics) ->
  (exists info, provider ticker = Ok info /\ metrics = metrics_of_info info)
  /\ fetches w' = fetches w ++ [EvFetch ticker]
  /\ w_files w' = w_files w /\ w_stdin w' = w_stdin w.
Proof.
  rewrite fetch_run. intros H. inversion H as [[Hw Hr]]. split.
  - destruct (provider ticker) as [e|info]; [discriminate|].
    exists info. split; [reflexivity|]. simpl in Hr. now inversion Hr.
  - unfold fetches. simpl. rewrite List.filter_app. simpl. auto.
Qed.

Section Screening.

Variable provider : option string -> res Info.
Variable target_keywords : list string.
Variable target_market_cap : option Q.
Variables tolerance kmin kmax : Q.

(** When the loop returns, every peer had a verdict, the result is the list
    it started from followed by the accepted peers in their order, and the
    provider was called once for each peer, in order. *)
Lemma screen_peers_inv (peer_companies : list string) :
  forall (comparables : list string) (w w' : world) (result : list string),
    screen_peers provider target_keywords target_market_cap tolerance kmin kmax
      peer_companies comparables w = (w', Ok result) ->
    result
    = comparables
      ++ List.filter (peer_accepted provider target_keywords target_market_cap
                        tolerance kmin kmax) peer_companies
    /\ Forall (fun peer =>
                 exists v, peer_verdict provider target_keywords target_market_cap
                             tolerance kmin kmax peer = Ok v) peer_companies
    /\ fetches w' = fetches w ++ map fetch_of peer_companies.
Proof.
  induction peer_companies as [|peer rest IH]; intros comparables w w' result; simpl.
  - unfold ret. intros H. inversion H; subst.
    now rewrite !app_nil_r.
  - run_bind w1 pm H1; [discriminate|].
    apply fetch_inv in H1 as ((info & Hinfo & ->) & F1 & _).
    run_bind w2 kw H2; [discriminate|].
    apply lift_inv in H2 as [-> Hkw].
    run_bind w3 u3 H3; [discriminate|].
    apply print_inv in H3 as (F3 & _).
    run_bind w4 mp H4; [discriminate|].
    apply lift_inv in H4 as [-> Hmp].
    run_bind w5 u5 H5; [discriminate|].
    apply print_inv in H5 as (F5 & _).
    run_bind w6 v H6; [discriminate|].
    apply lift_inv in H6 as [-> Hv].
    assert (Hverdict :
      peer_verdict provider target_keywords target_market_cap tolerance kmin kmax peer
      = Ok v).
    { unfold peer_verdict, res_bind, Ok in *. rewrite Hinfo. cbv beta iota zeta.
      rewrite Hkw, Hmp. exact Hv. }
    assert (Hacc :
      peer_accepted provider target_keywords target_market_cap tolerance kmin kmax peer
      = accepted v).
    { unfold peer_accepted. now rewrite Hverdict. }
    run_bind w7 cs H7; [discriminate|].
    assert (Hcs : cs = (if accepted v then comparables ++ [peer] else comparables)
                  /\ fetches w7 = fetches w5).
    { destruct v; simpl.
      - unfold ret in H7. now inversion H7.
      - revert H7. run_bind w8 u8 H8; [discriminate|].
        apply print_inv in H8 as (F8 & _).
        unfold ret. intros H7. now inversion H7; subst.
      - unfold ret in H7. now inversion H7. }
    destruct Hcs as [-> F7].
    intros H. apply IH in H as (-> & Hall & Hf).
    split; [|split].
    + rewrite Hacc. destruct (accepted v); simpl; [|reflexivity].
      now rewrite <- app_assoc.
    + constructor; [now exists v|exact Hall].
    + rewrite Hf, F7, F5, F3, F1. unfold fetch_of at 2. now rewrite <- app_assoc.
Qed.

(** When every peer has a verdict, the loop returns. *)
Lemma screen_peers_total (peer_companies : list string) :
  Forall (fun peer =>
            exists v, peer_verdict provider target_keywords target_market_cap
                        tolerance kmin kmax peer = Ok v) peer_companies ->
  forall (comparables : list string) (w : world),
    exists w' : world,
      screen_peers provider target_keywords target_market_cap tolerance kmin kmax
        peer_companies comparables w
      = (w', Ok (comparables
                 ++ List.filter (peer_accepted provider target_keywords
                                   target_market_cap tolerance kmin kmax)
                      peer_companies)).
Proof.
  induction 1 as [|peer rest [v Hv] _ IH]; intros comparables w; simpl.
  - eexists. unfold ret. now rewrite app_nil_r.
  - unfold peer_accepted at 1. rewrite Hv.
    unfold peer_verdict, res_bind in Hv.
    destruct (provider (Some peer)) as [e|info] eqn:Hinfo; [discriminate|].
    cbv beta iota zeta in Hv.
    destruct (extract_keywords_opt _ _) as [e|kw] eqn:Hkw; [discriminate|].
    destruct (keyword_match_percentage target_keywords kw) as [e|mp] eqn:Hmp;
      [discriminate|].
    erewrite bind_ok by (rewrite fetch_run, Hinfo; reflexivity).
    erewrite bind_ok by (unfold lift; rewrite Hkw; reflexivity).
    erewrite bind_ok by reflexivity.
    erewrite bind_ok by (unfold lift; rewrite Hmp; reflexivity).
    erewrite bind_ok by reflexivity.
    erewrite bind_ok by (unfold lift; rewrite Hv; reflexivity).
    destruct v; simpl.
    + erewrite bind_ok by reflexivity.
      match goal with
      | |- exists _, screen_peers _ _ _ _ _ _ _ ?c ?w0 = _ =>
          destruct (IH c w0) as [w' Hw']
      end.
      exists w'. rewrite Hw'. now rewrite <- app_assoc.
    + erewrite bind_ok by reflexivity.
      match goal with
      | |- exists _, screen_peers _ _ _ _ _ _ _ ?c ?w0 = _ =>
          destruct (IH c w0) as [w' Hw']
      end.
      exists w'. rewrite Hw'. now rewrite <- app_assoc.
    + erewrite bind_ok by reflexivity.
      apply IH.
Qed.


End Screening.






(** A target out of reach does not by itself end the run: the resolver
    catches the failure, and when the provider answers for the ticker [None]
    the run screens the peers and returns, with nothing stored. *)
Example target_failure_is_caught :
  (run (main (Scenario.market ["TGT"] (Ok Scenario.TGT)))
     (Scenario.start ["TGT"; "y"])).2 = Ok tt
  /\ w_files (run (main (Scenario.market ["TGT"] (Ok Scenario.TGT)))
                (Scenario.start ["TGT"; "y"])).1 = ∅
  /\ fetches (run (main (Scenario.market ["TGT"] (Ok Scenario.TGT)))
                (Scenario.start ["TGT"; "y"])).1
     = EvFetch (Some "TGT") :: EvFetch None :: map fetch_of PEER_COMPANIES.
Proof. vm_compute. repeat split. Qed.


(** ** A declined confirmation *)

Section Declined.

Variable provider : option string -> res Info.

(** A ticker the provider knows, and an answer other than "y": the
    resolver returns [None]. *)
Lemma search_stock_declined (stock_input answer name : string) (info : Info)
    (rest : list string) (tr : list event) (files : gmap string (list ResultRow)) :
  provider (Some stock_input) = Ok info -> shortName info = Some name ->
  PyStr.lower (PyStr.strip answer) <> "y" ->
  search_stock provider stock_input (World (answer :: rest) tr files)
  = (World rest
       (tr ++ [EvFetch (Some stock_input); EvPrint (MsgFound name stock_input);
               EvInput AskConfirmation])
       files,
     Ok None).
Proof.
  intros Hinfo Hname Hno.
  unfold search_stock, try_except, bind. rewrite ticker_info_run, Hinfo.
  cbn. rewrite Hname. cbn.
  destruct (String.eqb (PyStr.lower (PyStr.strip answer)) "y") eqn:E.
  - apply String.eqb_eq in E. contradiction.
  - cbn. now rewrite <- !app_assoc.
Qed.

End Declined.

(** C5, what the code does — with a ticker the provider knows and an answer
    other than "y", [main] does not stop at the rejection: right after the
    confirmation prompt it fetches the metrics of the ticker [None], and the
    run goes on from there into the screening; when the provider raises on
    [None] the run ends with that exception, and "No valid stock selected."
    is not printed. *)
Theorem declined_ticker_still_fetched (provider : option string -> res Info)
    (line answer name : string) (info : Info)
    (rest : list string) (tr : list event) (files : gmap string (list ResultRow)) :
  provider (Some (PyStr.strip line)) = Ok info -> shortName info = Some name ->
  PyStr.lower (PyStr.strip answer) <> "y" ->
  let asked :=
    tr ++ [EvInput AskTicker; EvFetch (Some (PyStr.strip line));
           EvPrint (MsgFound name (PyStr.strip line)); EvInput AskConfirmation;
           EvFetch None] in
  (exists later : list event,
      w_trace (run (main provider) (World (line :: answer :: rest) tr files)).1
      = asked ++ later)
  /\ (forall e : exn,
        provider None = Raise e ->
        run (main provider) (World (line :: answer :: rest) tr files)
        = (World rest asked files, Raise e)).
Proof.
  intros Hinfo Hname Hno asked. unfold run.
  assert (Hmain :
    main provider (World (line :: answer :: rest) tr files)
    = bind (fetch_metrics_and_description provider None)
        (fun target_metrics =>
           comparables <- find_comparables provider target_metrics PEER_COMPANIES
                            (3 # 4) 11 19 ;;
           match comparables with
           | [] => print (MsgNoComparables None)
           | _ =>
               match ticker_truthy None with
               | Some t => report_and_save provider t comparables
               | None => print MsgNoValidStock
               end
           end)
        (World rest
           (tr ++ [EvInput AskTicker; EvFetch (Some (PyStr.strip line));
                   EvPrint (MsgFound name (PyStr.strip line));
                   EvInput AskConfirmation])
           files)).
  { unfold main. erewrite bind_ok by reflexivity.
    erewrite bind_ok
      by (apply search_stock_declined with (info := info); eassumption).
    now rewrite <- app_assoc. }
  rewrite Hmain. split.
  - destruct (provider None) as [e|i] eqn:Hnone.
    + erewrite bind_raise by (rewrite fetch_run, Hnone; reflexivity).
      exists []. subst asked. cbn. now rewrite app_nil_r, <- app_assoc.
    + erewrite bind_ok by (rewrite fetch_run, Hnone; reflexivity).
      destruct (preserves_screen_and_report trace_grows trace_grows_refl
                  trace_grows_trans trace_grows_emit provider
                  trace_grows_to_excel None (metrics_of_info i)
                  (World rest
                     ((tr ++ [EvInput AskTicker; EvFetch (Some (PyStr.strip line));
                              EvPrint (MsgFound name (PyStr.strip line));
                              EvInput AskConfirmation]) ++ [EvFetch None])
                     files)) as [later Hlater].
      exists later. cbn [w_stdin w_trace w_files]. rewrite Hlater.
      subst asked. cbn [w_trace].
      now rewrite <- !app_assoc.
  - intros e Hnone.
    erewrite bind_raise by (rewrite fetch_run, Hnone; reflexivity).
    subst asked. cbn. now rewrite <- app_assoc.
Qed.

Lemma declined_ticker_still_fetched_witness :
  PyStr.lower (PyStr.strip "n") <> "y"
  /\ run (main (Scenario.market [] Scenario.no_ticker)) (Scenario.start ["TGT"; "n"])
     = (World []
          [EvInput AskTicker; EvFetch (Some "TGT");
           EvPrint (MsgFound "Target Foods" "TGT"); EvInput AskConfirmation;
           EvFetch None]
          ∅,
        Raise AttributeError).
Proof.
  assert (Hno : PyStr.lower (PyStr.strip "n") <> "y") by discriminate.
  split; [exact Hno|].
  exact (proj2 (declined_ticker_still_fetched
                  (Scenario.market [] Scenario.no_ticker) "TGT" "n" "Target Foods"
                  Scenario.TGT [] [] ∅ eq_refl eq_refl Hno)
           AttributeError eq_refl).
Defined.

(** The same rejection with a provider that answers for the ticker [None]:
    all five peers are fetched and screened after the rejection, with an
    empty answer as with "n". *)
Lemma declined_ticker_screens_peers :
  List.filter is_fetch
    (w_trace (run (main (Scenario.market [] (Ok Scenario.TGT)))
                (Scenario.start ["TGT"; ""])).1)
  = [EvFetch (Some "TGT"); EvFetch None; EvFetch (Some "ADM"); EvFetch (Some "BG");
     EvFetch (Some "INGR"); EvFetch (Some "LANC"); EvFetch (Some "HRL")]
  /\ List.filter is_fetch
       (w_trace (run (main (Scenario.market [] (Ok Scenario.LANC)))
                   (Scenario.start ["TGT"; "n"])).1)
     = [EvFetch (Some "TGT"); EvFetch None; EvFetch (Some "ADM"); EvFetch (Some "BG");
        EvFetch (Some "INGR"); EvFetch (Some "LANC"); EvFetch (Some "HRL")]
  /\ List.filter (printed MsgNoValidStock)
       (w_trace (run (main (Scenario.market [] (Ok Scenario.LANC)))
                   (Scenario.start ["TGT"; "n"])).1) = []
  /\ List.filter (printed (MsgNoComparables None))
       (w_trace (run (main (Scenario.market [] (Ok Scenario.LANC)))
                   (Scenario.start ["TGT"; "n"])).1)
     = [EvPrint (MsgNoComparables None)].
Proof. vm_compute. repeat split. Qed.

(** ** The valuation as a whole *)

Lemma comparable_company_analysis_result (provider : option string -> res Info)
    (target_ticker : string) (comparables : list string) (w w' : world)
    (fair_values : gmap string pyval) (target_metrics : CompanyMetrics) :
  comparable_company_analysis provider target_ticker comparables w
  = (w', Ok (fair_values, target_metrics)) ->
  exists comparable_metrics : list (string * CompanyMetrics),
    fair_values = value_against target_metrics comparable_metrics.
Proof.
  unfold comparable_company_analysis.
  run_bind w1 tm H1; [discriminate|].
  run_bind w2 cm H2; [discriminate|].
  intros H. exists cm. unfold value_against.
  unfold bind, print, emit, ret in H; cbn in H. now inversion H.
Qed.

Example median_odd : (median [8%Q; 10%Q; 12%Q] == 10)%Q.
Proof. reflexivity. Qed.

Example median_even : (median [10%Q; 8%Q] == 9)%Q.
Proof. reflexivity. Qed.

(** The run of the whole pipeline on the concrete market: "ADM" enters on
    keywords alone, "BG" on keywords and market cap, and the three rows are
    stored. *)
Example main_stores_three_rows :
  (run (main (Scenario.market [] Scenario.no_ticker))
     (Scenario.start ["TGT"; "y"])).2 = Ok tt
  /\ w_files (run (main (Scenario.market [] Scenario.no_ticker))
                (Scenario.start ["TGT"; " Y "])).1 !! EXCEL_FILE
     = Some [ {| Stock := PStr "TGT"; Metric := PStr "EV/EBITDA Fair Value";
                 Value := PNum (get (median_opt [(10000000000 / 1000000000)%Q; (1200000000 / 100000000)%Q])
                               * 100000000 / 10000000) |};
              {| Stock := PStr "TGT"; Metric := PStr "P/E Fair Value";
                 Value := PNum (get (median_opt [(100 / 10)%Q; (60 / 5)%Q]) * 50000000 / 10000000) |};
              {| Stock := PStr "TGT"; Metric := PStr "Current Price";
                 Value := PNum 50 |} ].
Proof. vm_compute. repeat split. Qed.

(** * Further properties of the code *)

(** ** Keywords *)

Lemma re_sub_alpha_or_space (description : string) :
  all_chars (fun c => PyStr.is_alpha c || PyStr.is_space c)
    (re_sub_non_alpha description) = true.
Proof.
  induction description as [|c r IH]; simpl; [reflexivity|].
  destruct (PyStr.is_alpha c || PyStr.is_space c) eqn:E; simpl; [|exact IH].
  now rewrite E, IH.
Qed.

Lemma lower_char_alpha_or_space (c : ascii) :
  PyStr.is_alpha c || PyStr.is_space c = true ->
  is_lower_az (PyStr.lower_char c) || PyStr.is_space (PyStr.lower_char c) = true.
Proof. destruct c as [[] [] [] [] [] [] [] []]; vm_compute; congruence. Qed.

Lemma lower_letters_or_space (s : string) :
  all_chars (fun c => PyStr.is_alpha c || PyStr.is_space c) s = true ->
  all_chars (fun c => is_lower_az c || PyStr.is_space c) (PyStr.lower s) = true.
Proof.
  induction s as [|c r IH]; simpl; [reflexivity|].
  intros [Hc Hr]%andb_true_iff.
  now rewrite (lower_char_alpha_or_space c Hc), IH.
Qed.

Lemma all_chars_app (p : ascii -> bool) (a b : string) :
  all_chars p (a +:+ b) = all_chars p a && all_chars p b.
Proof.
  induction a as [|c r IH]; simpl; [reflexivity|].
  now rewrite IH, andb_assoc.
Qed.

Lemma flush_all (p : ascii -> bool) (cur : string) :
  all_chars p cur = true ->
  Forall (fun w => all_chars p w = true) (PyStr.flush cur).
Proof. destruct cur; simpl; auto. Qed.

(** The words cut out of a string of [p]-characters and whitespace are made
    of [p]-characters. *)
Lemma split_from_all (p : ascii -> bool) (s cur : string) :
  all_chars p cur = true ->
  all_chars (fun c => p c || PyStr.is_space c) s = true ->
  Forall (fun w => all_chars p w = true) (PyStr.split_from cur s).
Proof.
  revert cur; induction s as [|c r IH]; intros cur Hcur Hs; simpl.
  - now apply flush_all.
  - simpl in Hs. apply andb_true_iff in Hs as [Hc Hr].
    destruct (PyStr.is_space c) eqn:Sc.
    + apply Forall_app; split; [now apply flush_all|]. now apply IH.
    + apply IH; [|exact Hr]. rewrite all_chars_app; simpl.
      rewrite orb_false_r in Hc. now rewrite Hcur, Hc.
Qed.

Lemma description_words_lowercase (description : string) :
  Forall (fun w => all_chars is_lower_az w = true) (description_words description).
Proof.
  apply split_from_all; [reflexivity|].
  apply lower_letters_or_space, re_sub_alpha_or_space.
Qed.

(** X1 — every keyword returned by the extraction is made of the letters
    a to z only, is longer than three characters, is not a stopword and is
    not the lowercased company name. *)
Theorem extract_keywords_wellformed (description company_name word : string) :
  word ∈ extract_keywords description company_name ->
  all_chars is_lower_az word = true
  /\ (3 < PyStr.len word)%nat
  /\ (word ∉ STOPWORDS)
  /\ word <> PyStr.lower company_name.
Proof.
  unfold extract_keywords. rewrite list_elem_of_In, filter_In.
  intros [Hin Hkeep]. unfold keep_word in Hkeep.
  apply andb_true_iff in Hkeep as [Hkeep Hlen].
  apply andb_true_iff in Hkeep as [Hstop Hname].
  split; [|split; [|split]].
  - pose proof (description_words_lowercase description) as Hall.
    rewrite Forall_forall in Hall. apply Hall. now apply list_elem_of_In.
  - now apply Nat.ltb_lt.
  - now apply bool_decide_eq_true in Hstop.
  - intros ->. rewrite String.eqb_refl in Hname. discriminate.
Qed.

Lemma extract_keywords_wellformed_witness :
  "widgets" ∈ extract_keywords "Acme makes 3 Widgets, and the rest!" "Acme"
  /\ all_chars is_lower_az "widgets" = true
  /\ ("widgets" ∉ STOPWORDS).
Proof.
  assert (Hin : "widgets" ∈ extract_keywords "Acme makes 3 Widgets, and the rest!" "Acme").
  { vm_compute. set_solver. }
  pose proof (extract_keywords_wellformed _ _ _ Hin) as (H1 & _ & H3 & _).
  split; [exact Hin|]. split; assumption.
Defined.

Lemma lower_ascii_lower_char (c : ascii) :
  PyStr.lower_char (ascii_lower_char c) = PyStr.lower_char c.
Proof. destruct c as [[] [] [] [] [] [] [] []]; reflexivity. Qed.

Lemma lower_ascii_lower (s : string) : PyStr.lower (ascii_lower s) = PyStr.lower s.
Proof.
  induction s as [|c r IH]; simpl; [reflexivity|].
  now rewrite lower_ascii_lower_char, IH.
Qed.

Lemma is_alpha_ascii_lower_char (c : ascii) :
  PyStr.is_alpha (ascii_lower_char c) = PyStr.is_alpha c.
Proof. destruct c as [[] [] [] [] [] [] [] []]; reflexivity. Qed.

Lemma is_space_ascii_lower_char (c : ascii) :
  PyStr.is_space (ascii_lower_char c) = PyStr.is_space c.
Proof. destruct c as [[] [] [] [] [] [] [] []]; reflexivity. Qed.

Lemma re_sub_ascii_lower (description : string) :
  re_sub_non_alpha (ascii_lower description)
  = ascii_lower (re_sub_non_alpha description).
Proof.
  induction description as [|c r IH]; simpl; [reflexivity|].
  rewrite is_alpha_ascii_lower_char, is_space_ascii_lower_char.
  destruct (PyStr.is_alpha c || PyStr.is_space c); simpl; now rewrite IH.
Qed.

Lemma description_words_ascii_lower (description : string) :
  description_words (ascii_lower description) = description_words description.
Proof.
  unfold description_words. now rewrite re_sub_ascii_lower, lower_ascii_lower.
Qed.

(** X2 — the extraction does not see the case of the letters A to Z: two
    descriptions that differ only in the case of those letters, with two
    company names that are equal once lowercased, give the same keywords. *)
Theorem extract_keywords_case_insensitive (d1 d2 n1 n2 : string) :
  ascii_lower d1 = ascii_lower d2 -> PyStr.lower n1 = PyStr.lower n2 ->
  extract_keywords d1 n1 = extract_keywords d2 n2.
Proof.
  intros Hd Hn. unfold extract_keywords.
  rewrite <- (description_words_ascii_lower d1),
    <- (description_words_ascii_lower d2), Hd.
  apply filter_ext. intros w. unfold keep_word. now rewrite Hn.
Qed.

Lemma extract_keywords_case_insensitive_witness :
  extract_keywords "ACME Makes WIDGETS" "ACME"
  = extract_keywords "acme makes widgets" "Acme".
Proof.
  apply extract_keywords_case_insensitive; reflexivity.
Defined.

(** ** Match percentage *)

Lemma size_list_to_set_dup (l : list string) :
  ~ NoDup l -> (size (list_to_set l : gset string) < length l)%nat.
Proof.
  induction l as [|x l IH]; intros Hdup.
  - exfalso. apply Hdup. constructor.
  - rewrite list_to_set_cons. simpl.
    pose proof (size_list_to_set_le l) as Hle.
    destruct (decide (x ∈ l)) as [Hin|Hnin].
    + replace ({[x]} ∪ list_to_set l : gset string) with (list_to_set l : gset string)
        by set_solver.
      lia.
    + rewrite size_union by set_solver. rewrite size_singleton.
      assert (Hl : ~ NoDup l).
      { intros Hl. apply Hdup. now constructor. }
      specialize (IH Hl). lia.
Qed.

Lemma Qof_nat_lt (k n : nat) : (k < n)%nat -> (Qof_nat k < Qof_nat n)%Q.
Proof.
  intros H. unfold Qof_nat. rewrite <- Zlt_Qlt. lia.
Qed.

Lemma percentage_full (k n : nat) :
  (k ≤ n)%nat -> (0 < n)%nat ->
  (Qof_nat k / Qof_nat n * 100 == 100)%Q <-> k = n.
Proof.
  intros Hkn Hn. pose proof (Qof_nat_pos n Hn) as Hpos. split.
  - intros Heq. destruct (decide (k = n)) as [E|Hne]; [exact E|exfalso].
    assert (Hlt : (k < n)%nat) by lia.
    apply Qof_nat_lt in Hlt.
    assert (H1 : (Qof_nat k / Qof_nat n < 1)%Q).
    { apply Qlt_shift_div_r; [exact Hpos|]. now rewrite Qmult_1_l. }
    assert (H100 : (Qof_nat k / Qof_nat n * 100 < 1 * 100)%Q).
    { apply Qmult_lt_compat_r; [reflexivity|exact H1]. }
    rewrite Heq in H100. now apply Qlt_irrefl in H100.
  - intros ->. unfold Qdiv. rewrite Qmult_inv_r; [reflexivity|].
    intros E. rewrite E in Hpos. now apply Qlt_irrefl in Hpos.
Qed.

Lemma percentage_zero (k n : nat) :
  (0 < n)%nat -> (Qof_nat k / Qof_nat n * 100 == 0)%Q <-> k = 0%nat.
Proof.
  intros Hn. pose proof (Qof_nat_pos n Hn) as Hpos. split.
  - intros Heq. destruct k as [|k]; [reflexivity|exfalso].
    assert (Hk : (0 < Qof_nat (S k))%Q) by (apply Qof_nat_pos; lia).
    assert (H1 : (0 < Qof_nat (S k) / Qof_nat n)%Q).
    { apply Qlt_shift_div_l; [exact Hpos|]. now rewrite Qmult_0_l. }
    assert (H100 : (0 * 100 < Qof_nat (S k) / Qof_nat n * 100)%Q).
    { apply Qmult_lt_compat_r; [reflexivity|exact H1]. }
    rewrite Heq in H100. now apply Qlt_irrefl in H100.
  - intros ->. unfold Qdiv, Qof_nat. simpl. now rewrite !Qmult_0_l.
Qed.

Lemma keyword_match_percentage_value (target_keywords peer_keywords : list string) :
  target_keywords <> [] -> peer_keywords <> [] ->
  keyword_match_percentage target_keywords peer_keywords
  = Ok (Qof_nat (size (overlap target_keywords peer_keywords))
        / Qof_nat (length target_keywords) * 100)%Q.
Proof.
  intros Ht Hp. unfold keyword_match_percentage.
  destruct peer_keywords as [|w ws]; [congruence|].
  rewrite py_div_nonzero; [reflexivity|].
  intros E.
  assert (Hlen : (0 < length target_keywords)%nat)
    by (destruct target_keywords; [congruence|simpl; lia]).
  apply Qof_nat_pos in Hlen. rewrite E in Hlen. now apply Qlt_irrefl in Hlen.
Qed.

(** X3 — a keyword list matched against itself scores 100 exactly when it
    holds no keyword twice: the overlap counts distinct keywords, the
    denominator counts entries. *)
Theorem keyword_match_percentage_self (keywords : list string) :
  keywords <> [] ->
  exists p : Q,
    keyword_match_percentage keywords keywords = Ok p
    /\ ((p == 100)%Q <-> NoDup keywords).
Proof.
  intros Hne. rewrite keyword_match_percentage_value by assumption.
  eexists; split; [reflexivity|].
  assert (Hlen : (0 < length keywords)%nat)
    by (destruct keywords; [congruence|simpl; lia]).
  rewrite percentage_full by (auto using overlap_le_target).
  assert (Hself : overlap keywords keywords = list_to_set keywords)
    by (unfold overlap; set_solver).
  rewrite Hself. split.
  - intros Hsize. destruct (decide (NoDup keywords)) as [H|H]; [exact H|].
    apply size_list_to_set_dup in H. lia.
  - apply size_list_to_set.
Qed.

Lemma keyword_match_percentage_self_witness :
  (exists p : Q,
      keyword_match_percentage ["foods"; "frozen"; "foods"] ["foods"; "frozen"; "foods"]
      = Ok p /\ ~ (p == 100)%Q)
  /\ (exists p : Q,
        keyword_match_percentage ["foods"; "frozen"] ["foods"; "frozen"] = Ok p
        /\ (p == 100)%Q).
Proof.
  split.
  - destruct (keyword_match_percentage_self ["foods"; "frozen"; "foods"])
      as (p & Hp & Hiff); [discriminate|].
    exists p. split; [exact Hp|]. intros H100. apply Hiff in H100.
    apply NoDup_cons in H100 as [Hnot _]. apply Hnot. set_solver.
  - destruct (keyword_match_percentage_self ["foods"; "frozen"])
      as (p & Hp & Hiff); [discriminate|].
    exists p. split; [exact Hp|]. apply Hiff.
    repeat constructor; set_solver.
Defined.

(** X4 — for a target list that is not empty the match percentage is 0
    exactly when no target keyword occurs among the peer keywords. *)
Theorem keyword_match_percentage_zero (target_keywords peer_keywords : list string) :
  target_keywords <> [] ->
  exists p : Q,
    keyword_match_percentage target_keywords peer_keywords = Ok p
    /\ ((p == 0)%Q <-> forall w : string, w ∈ target_keywords -> w ∉ peer_keywords).
Proof.
  intros Hne.
  assert (Hlen : (0 < length target_keywords)%nat)
    by (destruct target_keywords; [congruence|simpl; lia]).
  destruct peer_keywords as [|x xs].
  - exists 0%Q. split; [reflexivity|]. split; [|reflexivity].
    intros _ w _. apply not_elem_of_nil.
  - rewrite keyword_match_percentage_value by (assumption || discriminate).
    eexists; split; [reflexivity|].
    rewrite percentage_zero by exact Hlen.
    rewrite size_empty_iff. unfold overlap. split.
    + intros Hempty w Hw Hp.
      assert (Hin : w ∈ (list_to_set target_keywords ∩ list_to_set (x :: xs) : gset string))
        by (apply elem_of_intersection; split; now apply elem_of_list_to_set).
      rewrite Hempty in Hin. now apply elem_of_empty in Hin.
    + intros Hdisj. apply set_equiv. intros w. split.
      * intros [Hw Hp]%elem_of_intersection.
        apply elem_of_list_to_set in Hw, Hp. exfalso. now apply (Hdisj w).
      * intros Hin. now apply elem_of_empty in Hin.
Qed.

Lemma keyword_match_percentage_zero_witness :
  exists p : Q,
    keyword_match_percentage ["foods"; "frozen"] ["steel"; "mills"] = Ok p
    /\ (p == 0)%Q.
Proof.
  destruct (keyword_match_percentage_zero ["foods"; "frozen"] ["steel"; "mills"])
    as (p & Hp & Hiff); [discriminate|].
  exists p. split; [exact Hp|]. apply Hiff.
  intros w Hw Hs. set_solver.
Defined.

(** ** The screener as a whole *)

Lemma find_comparables_inv (provider : option string -> res Info)
    (target_metrics : CompanyMetrics) (peer_companies : list string)
    (tolerance kmin kmax : Q) (w w' : world) (result : list string) :
  find_comparables provider target_metrics peer_companies tolerance kmin kmax w
  = (w', Ok result) ->
  exists target_keywords : list string,
    extract_keywords_opt (Description target_metrics) (CompanyName target_metrics)
    = Ok target_keywords
    /\ result
       = List.filter (peer_accepted provider target_keywords (MarketCap target_metrics)
                        tolerance kmin kmax) peer_companies
    /\ Forall (fun peer =>
                 exists v, peer_verdict provider target_keywords
                             (MarketCap target_metrics) tolerance kmin kmax peer = Ok v)
         peer_companies
    /\ fetches w' = fetches w ++ map fetch_of peer_companies.
Proof.
  unfold find_comparables.
  run_bind w1 tk H1; [discriminate|].
  apply lift_inv in H1 as [-> Htk].
  run_bind w2 u2 H2; [discriminate|].
  apply print_inv in H2 as (F2 & _).
  intros H. apply screen_peers_inv in H as (-> & Hall & Hf).
  exists tk. rewrite Hf, F2. auto.
Qed.

(** X5 — the comparables returned by the screener are peers of the list it
    was given, in the order of that list. *)
Theorem find_comparables_sublist (provider : option string -> res Info)
    (target_metrics : CompanyMetrics) (peer_companies : list string)
    (tolerance kmin kmax : Q) (w w' : world) (result : list string) :
  run (find_comparables provider target_metrics peer_companies tolerance kmin kmax) w
  = (w', Ok result) ->
  result `sublist_of` peer_companies.
Proof.
  intros H. apply find_comparables_inv in H as (tk & _ & -> & _).
  apply filter_sublist.
Qed.

Lemma find_comparables_sublist_witness :
  ["ADM"; "BG"] `sublist_of` PEER_COMPANIES.
Proof.
  apply (find_comparables_sublist (Scenario.market [] Scenario.no_ticker)
           (metrics_of_info Scenario.TGT) PEER_COMPANIES (3 # 4) 11 19
           (Scenario.start [])
           (run (find_comparables (Scenario.market [] Scenario.no_ticker)
                   (metrics_of_info Scenario.TGT) PEER_COMPANIES (3 # 4) 11 19)
                (Scenario.start [])).1).
  vm_compute. reflexivity.
Defined.

Lemma verdict_in_band (provider : option string -> res Info)
    (target_keywords : list string) (t tolerance kmin kmax : Q) (peer : string)
    (v : verdict) :
  ~ (t == 0)%Q ->
  peer_verdict provider target_keywords (Some t) tolerance kmin kmax peer = Ok v ->
  in_band_res kmin kmax (peer_percentage provider target_keywords peer) = accepted v.
Proof.
  intros Ht. unfold peer_verdict, peer_percentage, res_bind.
  destruct (provider (Some peer)) as [e|info]; [discriminate|].
  cbv beta iota zeta.
  destruct (extract_keywords_opt _ _) as [e|kw]; [discriminate|].
  destruct (keyword_match_percentage target_keywords kw) as [e|mp]; [discriminate|].
  rewrite screen_peer_cases by exact Ht. intros H. inversion H. simpl.
  destruct (in_band kmin kmax mp); [|reflexivity].
  now destruct (_ && _).
Qed.

(** X6 — with a target market cap that is a number other than zero, what
    the screener returns is exactly the peers whose match percentage with
    the target lies in the band, in the order of the peer list: market caps
    and tolerance play no part in the result. *)
Theorem find_comparables_filter (provider : option string -> res Info)
    (target_metrics : CompanyMetrics) (peer_companies : list string)
    (t tolerance kmin kmax : Q) (w w' : world) (result : list string) :
  MarketCap target_metrics = Some t -> ~ (t == 0)%Q ->
  run (find_comparables provider target_metrics peer_companies tolerance kmin kmax) w
  = (w', Ok result) ->
  exists target_keywords : list string,
    extract_keywords_opt (Description target_metrics) (CompanyName target_metrics)
    = Ok target_keywords
    /\ result
       = List.filter
           (fun peer => in_band_res kmin kmax
                          (peer_percentage provider target_keywords peer))
           peer_companies.
Proof.
  intros Hcap Ht H. apply find_comparables_inv in H as (tk & Htk & -> & Hall & _).
  exists tk. split; [exact Htk|].
  rewrite Hcap in *. clear Htk.
  induction Hall as [|peer rest [v Hv] _ IH]; [reflexivity|].
  cbn [List.filter].
  rewrite (verdict_in_band _ _ _ _ _ _ _ _ Ht Hv).
  unfold peer_accepted at 1. rewrite Hv. unfold Ok. cbv iota.
  destruct (accepted v); [f_equal|]; exact IH.
Qed.

Lemma find_comparables_filter_witness :
  exists target_keywords : list string,
    extract_keywords_opt (Description (metrics_of_info Scenario.TGT))
      (CompanyName (metrics_of_info Scenario.TGT)) = Ok target_keywords
    /\ ["ADM"; "BG"]
       = List.filter
           (fun peer => in_band_res 11 19
                          (peer_percentage (Scenario.market [] Scenario.no_ticker)
                             target_keywords peer))
           PEER_COMPANIES.
Proof.
  apply (find_comparables_filter (Scenario.market [] Scenario.no_ticker)
           (metrics_of_info Scenario.TGT) PEER_COMPANIES 1000000000 (3 # 4) 11 19
           (Scenario.start [])
           (run (find_comparables (Scenario.market [] Scenario.no_ticker)
                   (metrics_of_info Scenario.TGT) PEER_COMPANIES (3 # 4) 11 19)
                (Scenario.start [])).1).
  - reflexivity.
  - discriminate.
  - vm_compute. reflexivity.
Defined.

(** X7 — a screening that returns has called the provider once for each
    peer, in the order of the peer list, and for nothing else. *)
Theorem find_comparables_fetches (provider : option string -> res Info)
    (target_metrics : CompanyMetrics) (peer_companies : list string)
    (tolerance kmin kmax : Q) (w w' : world) (result : list string) :
  run (find_comparables provider target_metrics peer_companies tolerance kmin kmax) w
  = (w', Ok result) ->
  fetches w' = fetches w ++ map fetch_of peer_companies.
Proof.
  intros H. now apply find_comparables_inv in H as (tk & _ & _ & _ & Hf).
Qed.

Lemma find_comparables_fetches_witness :
  fetches (run (find_comparables (Scenario.market [] Scenario.no_ticker)
                  (metrics_of_info Scenario.TGT) PEER_COMPANIES (3 # 4) 11 19)
               (Scenario.start [])).1
  = [EvFetch (Some "ADM"); EvFetch (Some "BG"); EvFetch (Some "INGR");
     EvFetch (Some "LANC"); EvFetch (Some "HRL")].
Proof.
  apply (find_comparables_fetches (Scenario.market [] Scenario.no_ticker)
           (metrics_of_info Scenario.TGT) PEER_COMPANIES (3 # 4) 11 19
           (Scenario.start []) _ ["ADM"; "BG"]).
  vm_compute. reflexivity.
Defined.

Lemma filter_accepted_band (provider : option string -> res Info)
    (target_keywords : list string) (t tolerance kmin kmax : Q)
    (peer_companies : list string) :
  ~ (t == 0)%Q ->
  Forall (fun peer =>
            exists v, peer_verdict provider target_keywords (Some t)
                        tolerance kmin kmax peer = Ok v) peer_companies ->
  List.filter (peer_accepted provider target_keywords (Some t) tolerance kmin kmax)
    peer_companies
  = List.filter
      (fun peer => in_band_res kmin kmax (peer_percentage provider target_keywords peer))
      peer_companies.
Proof.
  intros Ht Hall.
  induction Hall as [|peer rest [v Hv] _ IH]; [reflexivity|].
  cbn [List.filter].
  rewrite (verdict_in_band _ _ _ _ _ _ _ _ Ht Hv).
  unfold peer_accepted at 1. rewrite Hv. unfold Ok. cbv iota.
  destruct (accepted v); [f_equal|]; exact IH.
Qed.

Lemma keyword_match_percentage_ok (target_keywords peer_keywords : list string) :
  target_keywords <> [] ->
  exists p : Q, keyword_match_percentage target_keywords peer_keywords = Ok p.
Proof.
  intros Hne. destruct peer_keywords as [|x xs]; [now exists 0%Q|].
  rewrite keyword_match_percentage_value by (assumption || discriminate).
  now eexists.
Qed.

(** X8 — the screening returns, with the peers in the band, as soon as the
    target has a description, a name, at least one keyword and a market cap
    other than zero, and the provider answers for every peer with a
    description and a name. *)
Theorem find_comparables_returns (provider : option string -> res Info)
    (target_metrics : CompanyMetrics) (peer_companies : list string)
    (t tolerance kmin kmax : Q) (w : world) (description name : string) :
  Description target_metrics = Some description ->
  CompanyName target_metrics = Some name ->
  extract_keywords description name <> [] ->
  MarketCap target_metrics = Some t -> ~ (t == 0)%Q ->
  (forall peer : string,
      peer ∈ peer_companies ->
      exists (info : Info) (peer_description peer_name : string),
        provider (Some peer) = Ok info
        /\ longBusinessSummary info = Some peer_description
        /\ shortName info = Some peer_name) ->
  exists w' : world,
    run (find_comparables provider target_metrics peer_companies tolerance kmin kmax) w
    = (w', Ok (List.filter
                 (fun peer =>
                    in_band_res kmin kmax
                      (peer_percentage provider (extract_keywords description name) peer))
                 peer_companies)).
Proof.
  intros Hd Hn Hkw Hcap Ht Hpeers.
  assert (Hall :
    Forall (fun peer =>
              exists v, peer_verdict provider (extract_keywords description name)
                          (Some t) tolerance kmin kmax peer = Ok v) peer_companies).
  { apply Forall_forall. intros peer Hin.
    destruct (Hpeers peer Hin) as (info & pd & pn & Hinfo & Hpd & Hpn).
    unfold peer_verdict, res_bind. rewrite Hinfo. unfold Ok. cbv beta iota zeta.
    unfold metrics_of_info. cbn [Description CompanyName MarketCap].
    rewrite Hpd, Hpn. cbn [extract_keywords_opt]. unfold Ok. cbv iota.
    destruct (keyword_match_percentage_ok (extract_keywords description name)
                (extract_keywords pd pn) Hkw) as [mp ->].
    unfold Ok. cbv iota. rewrite screen_peer_cases by exact Ht. now eexists. }
  unfold run, find_comparables. rewrite Hd, Hn, Hcap. cbv zeta.
  erewrite bind_ok by reflexivity.
  erewrite bind_ok by reflexivity.
  match goal with
  | |- exists _, screen_peers _ _ _ _ _ _ _ ?c ?w0 = _ =>
      destruct (screen_peers_total provider (extract_keywords description name)
                  (Some t) tolerance kmin kmax peer_companies Hall c w0) as [w' Hw']
  end.
  exists w'. rewrite Hw'. simpl.
  now rewrite (filter_accepted_band _ _ _ _ _ _ _ Ht Hall).
Qed.

Lemma find_comparables_returns_witness :
  exists w' : world,
    run (find_comparables (Scenario.market [] Scenario.no_ticker)
           (metrics_of_info Scenario.TGT) ["ADM"; "INGR"] (3 # 4) 11 19)
        (Scenario.start [])
    = (w', Ok ["ADM"]).
Proof.
  destruct (find_comparables_returns (Scenario.market [] Scenario.no_ticker)
              (metrics_of_info Scenario.TGT) ["ADM"; "INGR"] 1000000000 (3 # 4) 11 19
              (Scenario.start [])
              "Target Foods produces packaged snacks, frozen meals, sauces, cereals, beverages and spreads for retail."
              "Target Foods") as [w' Hw'].
  - reflexivity.
  - reflexivity.
  - vm_compute. discriminate.
  - reflexivity.
  - discriminate.
  - intros peer Hin.
    apply elem_of_cons in Hin as [->|Hin].
    + exists Scenario.ADM. eexists. eexists. repeat split.
    + apply list_elem_of_singleton in Hin as ->.
      exists Scenario.INGR. eexists. eexists. repeat split.
  - exists w'. rewrite Hw'. f_equal.
Defined.

(** X9 — the screening needs every description: with no target description
    it raises [TypeError] before any provider call, and a peer whose record
    has no business summary makes it end with an exception, the default of
    [peer_metrics.get('Description', "")] never applying since the key is
    always there. *)
Theorem screening_needs_descriptions (provider : option string -> res Info)
    (target_metrics : CompanyMetrics) (peer_companies : list string)
    (tolerance kmin kmax : Q) (w : world) :
  (Description target_metrics = None ->
   run (find_comparables provider target_metrics peer_companies tolerance kmin kmax) w
   = (w, Raise TypeError))
  /\ (forall (peer : string) (info : Info),
        peer ∈ peer_companies -> provider (Some peer) = Ok info ->
        longBusinessSummary info = None ->
        raised (run (find_comparables provider target_metrics peer_companies
                       tolerance kmin kmax) w).2 = true).
Proof.
  split.
  - intros Hd. unfold run, find_comparables. rewrite Hd. reflexivity.
  - intros peer info Hin Hinfo Hnone. unfold run.
    destruct (find_comparables provider target_metrics peer_companies tolerance
                kmin kmax w) as [w' [e|result]] eqn:E; [reflexivity|exfalso].
    apply find_comparables_inv in E as (tk & _ & _ & Hall & _).
    rewrite Forall_forall in Hall. destruct (Hall peer Hin) as [v Hv].
    unfold peer_verdict, res_bind in Hv. rewrite Hinfo in Hv.
    unfold Ok in Hv. cbv beta iota zeta in Hv.
    unfold metrics_of_info in Hv. cbn [Description CompanyName] in Hv.
    rewrite Hnone in Hv. discriminate.
Qed.

Lemma screening_needs_descriptions_witness :
  raised (run (find_comparables
                 (fun ticker => if bool_decide (ticker = Some "BG")
                                then Ok (silent Scenario.BG)
                                else Scenario.market [] Scenario.no_ticker ticker)
                 (metrics_of_info Scenario.TGT) PEER_COMPANIES (3 # 4) 11 19)
              (Scenario.start [])).2 = true.
Proof.
  apply (proj2 (screening_needs_descriptions _ (metrics_of_info Scenario.TGT)
                  PEER_COMPANIES (3 # 4) 11 19 (Scenario.start []))
           "BG" (silent Scenario.BG)).
  - unfold PEER_COMPANIES. set_solver.
  - reflexivity.
  - reflexivity.
Defined.

(** ** The tolerance of the primary branch *)

Lemma nonneg_div_neg (a t : Q) : (0 <= a)%Q -> (t < 0)%Q -> (a / t <= 0)%Q.
Proof.
  intros Ha Ht.
  assert (E : (a / t * t == a)%Q)
    by (field; intros E; rewrite E in Ht; now apply Qlt_irrefl in Ht).
  nra.
Qed.

Lemma deviation_of_equal_caps (p t : Q) : (p == t)%Q -> (Qabs (p - t) / t == 0)%Q.
Proof.
  intros E.
  assert (H0 : (Qabs (p - t) == 0)%Q).
  { apply Qle_antisym; [|apply Qabs_nonneg].
    apply Qabs_Qle_condition. split; lra. }
  unfold Qdiv. rewrite H0. ring.
Qed.

(** X10 — the tolerance test of the primary branch passes, for a tolerance
    that is not negative, whenever the target's market cap is negative and
    whenever the peer's market cap is the target's: a peer of known market
    cap is then accepted by the primary branch when its match percentage is
    in the band and rejected when it is not, and the fallback branch is
    never the one that accepts. *)
Theorem primary_branch_tolerance (p t tolerance kmin kmax match_percentage : Q) :
  ~ (p == 0)%Q -> (0 <= tolerance)%Q -> (t < 0)%Q \/ (p == t)%Q ->
  screen_peer (Some p) (Some t) tolerance kmin kmax match_percentage
  = Ok (if in_band kmin kmax match_percentage then AcceptPrimary else Reject).
Proof.
  intros Hp Htol Hcase.
  assert (Ht : ~ (t == 0)%Q).
  { destruct Hcase as [Ht|E]; intros E0.
    - rewrite E0 in Ht. now apply Qlt_irrefl in Ht.
    - apply Hp. now rewrite E. }
  rewrite screen_peer_cases by exact Ht.
  rewrite (truthy_Some p Hp). change (get (Some p)) with p. cbn [andb].
  assert (Hdev : Qle_bool (Qabs (p - t) / t) tolerance = true).
  { apply Qle_bool_iff. apply Qle_trans with 0%Q; [|exact Htol].
    destruct Hcase as [Hneg|E].
    - apply nonneg_div_neg; [apply Qabs_nonneg|exact Hneg].
    - rewrite (deviation_of_equal_caps p t E). apply Qle_refl. }
  now rewrite Hdev.
Qed.

Lemma primary_branch_tolerance_witness :
  screen_peer (Some 10000000000%Q) (Some (-1000000000)%Q) (3 # 4) 11 19 15
  = Ok AcceptPrimary
  /\ screen_peer (Some 1000000000%Q) (Some 1000000000%Q) (3 # 4) 11 19 25
     = Ok Reject.
Proof.
  assert (H1 : ~ (10000000000 == 0)%Q) by discriminate.
  assert (H2 : ~ (1000000000 == 0)%Q) by discriminate.
  assert (Htol : (0 <= 3 # 4)%Q) by discriminate.
  split.
  - exact (primary_branch_tolerance 10000000000 (-1000000000) (3 # 4) 11 19 15
             H1 Htol (or_introl eq_refl)).
  - exact (primary_branch_tolerance 1000000000 1000000000 (3 # 4) 11 19 25
             H2 Htol (or_intror (Qeq_refl _))).
Defined.

(** ** The median *)

Lemma insert_sorted_perm (x : Q) (l : list Q) : insert_sorted x l ≡ₚ x :: l.
Proof.
  induction l as [|y l IH]; simpl; [reflexivity|].
  destruct (Qle_bool x y); [reflexivity|].
  rewrite IH. apply Permutation_swap.
Qed.

Lemma sort_values_perm (l : list Q) : sort_values l ≡ₚ l.
Proof.
  induction l as [|x l IH]; simpl; [reflexivity|].
  rewrite insert_sorted_perm. now rewrite IH.
Qed.

(** X11 — the median of a sample that is not empty lies between any two
    bounds of the sample: it is never outside the range of the ratios. *)
Theorem median_bounds (ratios : list Q) (lo hi : Q) :
  ratios <> [] ->
  (forall x : Q, x ∈ ratios -> (lo <= x)%Q /\ (x <= hi)%Q) ->
  (lo <= median ratios)%Q /\ (median ratios <= hi)%Q.
Proof.
  intros Hne Hb. unfold median.
  pose proof (sort_values_perm ratios) as Hperm.
  assert (Hlen : length (sort_values ratios) = length ratios)
    by (now rewrite Hperm).
  assert (Hpos : (0 < length ratios)%nat)
    by (destruct ratios; [congruence|simpl; lia]).
  assert (Hnth : forall i : nat,
             (i < length ratios)%nat ->
             (lo <= nth i (sort_values ratios) 0)%Q
             /\ (nth i (sort_values ratios) 0 <= hi)%Q).
  { intros i Hi. apply Hb. apply list_elem_of_In.
    apply (Permutation_in _ Hperm). apply nth_In. now rewrite Hlen. }
  rewrite Hlen.
  assert (Hhalf : (length ratios / 2 < length ratios)%nat)
    by (apply Nat.div_lt; lia).
  destruct (Nat.even (length ratios)).
  - destruct (Hnth (length ratios / 2 - 1)%nat) as [H1 H2]; [lia|].
    destruct (Hnth (length ratios / 2)%nat) as [H3 H4]; [lia|].
    split.
    + apply Qle_shift_div_l; [reflexivity|]. lra.
    + apply Qle_shift_div_r; [reflexivity|]. lra.
  - now apply Hnth.
Qed.

Lemma median_bounds_witness :
  (8 <= median [12 # 1; 8 # 1; 10 # 1; 9 # 1])%Q
  /\ (median [12 # 1; 8 # 1; 10 # 1; 9 # 1] <= 12)%Q.
Proof.
  apply median_bounds; [discriminate|].
  intros x Hx.
  repeat (apply elem_of_cons in Hx as [->|Hx]; [split; discriminate|]).
  now apply elem_of_nil in Hx.
Defined.

(** ** The dictionary of comparables *)

Lemma dict_has_key {V} (k : string) (d : list (string * V)) :
  existsb (fun kv => String.eqb kv.1 k) d = true <-> k ∈ d.*1.
Proof.
  induction d as [|[k' v'] d IH]; simpl.
  - split; [discriminate|]. intros H. now apply elem_of_nil in H.
  - rewrite orb_true_iff, IH, elem_of_cons, String.eqb_eq. intuition congruence.
Qed.

Lemma dict_replace_keys {V} (k : string) (v : V) (d : list (string * V)) :
  (map (fun kv => if String.eqb kv.1 k then (kv.1, v) else kv) d).*1 = d.*1.
Proof.
  induction d as [|[k' v'] d IH]; [reflexivity|].
  cbn [map]. rewrite !fmap_cons, IH. f_equal. cbn [fst].
  now destruct (String.eqb k' k).
Qed.

Lemma dict_set_keys {V} (k : string) (v : V) (d : list (string * V)) :
  (dict_set k v d).*1 = if existsb (fun kv => String.eqb kv.1 k) d
                        then d.*1 else d.*1 ++ [k].
Proof.
  unfold dict_set. destruct (existsb _ d).
  - apply dict_replace_keys.
  - now rewrite fmap_app.
Qed.

Lemma dict_set_NoDup {V} (k : string) (v : V) (d : list (string * V)) :
  NoDup d.*1 -> NoDup (dict_set k v d).*1.
Proof.
  intros Hd. rewrite dict_set_keys.
  destruct (existsb _ d) eqn:E; [exact Hd|].
  apply NoDup_app. split; [exact Hd|]. split.
  - intros x Hx Hk. apply list_elem_of_singleton in Hk as ->.
    apply dict_has_key in Hx. congruence.
  - apply NoDup_singleton.
Qed.

Lemma dict_set_key_iff {V} (k : string) (v : V) (d : list (string * V)) (t : string) :
  t ∈ (dict_set k v d).*1 <-> t = k \/ t ∈ d.*1.
Proof.
  rewrite dict_set_keys. destruct (existsb _ d) eqn:E.
  - apply dict_has_key in E. split; [auto|]. intros [->|H]; assumption.
  - rewrite elem_of_app, list_elem_of_singleton. tauto.
Qed.

Lemma dict_set_entry {V} (k : string) (v : V) (d : list (string * V))
    (t : string) (m : V) :
  (t, m) ∈ dict_set k v d -> (t = k /\ m = v) \/ (t, m) ∈ d.
Proof.
  unfold dict_set. destruct (existsb _ d).
  - induction d as [|[k' v'] d IH]; simpl; [intros H; now apply elem_of_nil in H|].
    rewrite !elem_of_cons. intros [H|H].
    + destruct (String.eqb k' k) eqn:E.
      * apply String.eqb_eq in E. inversion H; subst. now left.
      * right. now left.
    + destruct (IH H) as [?|?]; [now left|right; now right].
  - rewrite elem_of_app, list_elem_of_singleton.
    intros [H|H]; [now right|]. inversion H. now left.
Qed.

Section Comparables.

Variable provider : option string -> res Info.

Lemma fetch_comparables_inv (comparables : list string) :
  forall (acc : list (string * CompanyMetrics)) (w w' : world)
         (comparable_metrics : list (string * CompanyMetrics)),
    fetch_comparables provider comparables acc w = (w', Ok comparable_metrics) ->
    fetches w' = fetches w ++ map fetch_of comparables
    /\ w_files w' = w_files w
    /\ (NoDup acc.*1 -> NoDup comparable_metrics.*1)
    /\ (forall t : string,
          t ∈ comparable_metrics.*1 <-> t ∈ acc.*1 \/ t ∈ comparables)
    /\ (Forall (faithful_entry provider) acc -> Forall (faithful_entry provider) comparable_metrics).
Proof.
  induction comparables as [|ticker rest IH]; intros acc w w' cm; simpl.
  - unfold ret. intros H. inversion H; subst. rewrite app_nil_r.
    split; [reflexivity|]. split; [reflexivity|]. split; [auto|].
    split; [|auto]. intros t. split.
    + intros Ht. now left.
    + intros [Ht|Ht]; [exact Ht|]. now apply elem_of_nil in Ht.
  - run_bind w1 metrics H1; [discriminate|].
    apply fetch_inv in H1 as ((info & Hinfo & ->) & F1 & Ff & _).
    intros H. apply IH in H as (Hf & Hfiles & Hnd & Hkeys & Hfaith).
    split; [|split; [|split; [|split]]].
    + rewrite Hf, F1. unfold fetch_of at 2. now rewrite <- app_assoc.
    + congruence.
    + intros Hacc. now apply Hnd, dict_set_NoDup.
    + intros t. rewrite Hkeys, dict_set_key_iff, elem_of_cons. tauto.
    + intros Hacc. apply Hfaith. apply Forall_forall. intros [t m] Hin.
      apply dict_set_entry in Hin as [[-> ->]|Hin].
      * now exists info.
      * rewrite Forall_forall in Hacc. now apply Hacc.
Qed.


End Comparables.

(** X12 — the dictionary of comparables has one entry for each distinct
    ticker of the list, however often the ticker is listed, and each entry
    carries the metrics the provider gave for its ticker. *)
Theorem fetch_comparables_entries (provider : option string -> res Info)
    (comparables : list string) (w w' : world)
    (comparable_metrics : list (string * CompanyMetrics)) :
  run (fetch_comparables provider comparables []) w = (w', Ok comparable_metrics) ->
  NoDup comparable_metrics.*1
  /\ (forall t : string, t ∈ comparable_metrics.*1 <-> t ∈ comparables)
  /\ (forall (t : string) (m : CompanyMetrics),
        (t, m) ∈ comparable_metrics ->
        exists info : Info, provider (Some t) = Ok info /\ m = metrics_of_info info).
Proof.
  intros H. apply fetch_comparables_inv in H as (_ & _ & Hnd & Hkeys & Hfaith).
  split; [apply Hnd; constructor|]. split.
  - intros t. rewrite Hkeys. simpl. split; [intros [H|H]; [|exact H]|now right].
    now apply elem_of_nil in H.
  - intros t m Hin. specialize (Hfaith (List.Forall_nil _)).
    rewrite Forall_forall in Hfaith. exact (Hfaith (t, m) Hin).
Qed.

Lemma fetch_comparables_entries_witness :
  (run (fetch_comparables (Scenario.market [] Scenario.no_ticker)
          ["ADM"; "BG"; "ADM"] []) (Scenario.start [])).2
  = Ok [("ADM", metrics_of_info Scenario.ADM); ("BG", metrics_of_info Scenario.BG)]
  /\ NoDup [("ADM", metrics_of_info Scenario.ADM);
            ("BG", metrics_of_info Scenario.BG)].*1.
Proof.
  assert (E : run (fetch_comparables (Scenario.market [] Scenario.no_ticker)
                     ["ADM"; "BG"; "ADM"] []) (Scenario.start [])
              = ((run (fetch_comparables (Scenario.market [] Scenario.no_ticker)
                         ["ADM"; "BG"; "ADM"] []) (Scenario.start [])).1,
                 Ok [("ADM", metrics_of_info Scenario.ADM);
                     ("BG", metrics_of_info Scenario.BG)]))
    by (vm_compute; reflexivity).
  split; [now rewrite E|].
  exact (proj1 (fetch_comparables_entries _ _ _ _ _ E)).
Defined.

(** ** The valuation *)

Lemma median_opt_nil_iff (ratios : list Q) : median_opt ratios = None <-> ratios = [].
Proof. destruct ratios; simpl; split; congruence. Qed.

Lemma flat_map_nil {A B} (f : A -> list B) (l : list A) :
  Forall (fun x => f x = []) l -> flat_map f l = [].
Proof.
  induction 1 as [|x l Hx _ IH]; simpl; [reflexivity|]. now rewrite Hx, IH.
Qed.

(** X13 — when no comparable has both a Price and positive Earnings, the
    P/E estimate is the sentinel whatever the target's figures; when none
    has both a market cap and a positive Ebitda, there is no EV/EBITDA
    estimate. An empty set of comparables is the extreme case. *)
Theorem no_usable_comparables (target_metrics : CompanyMetrics)
    (comparable_metrics : list (string * CompanyMetrics)) :
  (Forall (fun kv => truthy (Price kv.2) = false \/ positive (Earnings kv.2) = false)
     comparable_metrics ->
   value_against target_metrics comparable_metrics !! "P/E"
   = Some (PStr "N/A (Negative Earnings)"))
  /\ (Forall (fun kv => truthy (MarketCap kv.2) = false
                        \/ positive (Ebitda kv.2) = false)
        comparable_metrics ->
      value_against target_metrics comparable_metrics !! "EV/EBITDA" = None).
Proof.
  unfold value_against. split; intros Hall.
  - rewrite pe_entry.
    rewrite (flat_map_nil (fun kv => pe_ratio kv.2)).
    + simpl. now rewrite !andb_false_r.
    + eapply Forall_impl; [exact Hall|]. intros kv [H|H]; unfold pe_ratio;
        rewrite H; simpl; now rewrite ?andb_false_r.
  - rewrite ev_ebitda_entry.
    rewrite (flat_map_nil (fun kv => ev_ebitda_ratio kv.2)).
    + simpl. now rewrite !andb_false_r.
    + eapply Forall_impl; [exact Hall|]. intros kv [H|H]; unfold ev_ebitda_ratio;
        rewrite H; simpl; now rewrite ?andb_false_r.
Qed.

Lemma no_usable_comparables_witness :
  value_against (metrics_of_info Scenario.TGT)
    [("ADM", with_Price None (metrics_of_info Scenario.ADM))] !! "P/E"
  = Some (PStr "N/A (Negative Earnings)")
  /\ value_against (metrics_of_info Scenario.TGT) [] !! "EV/EBITDA" = None.
Proof.
  split.
  - apply (proj1 (no_usable_comparables (metrics_of_info Scenario.TGT)
                    [("ADM", with_Price None (metrics_of_info Scenario.ADM))])).
    repeat constructor.
  - apply (proj2 (no_usable_comparables (metrics_of_info Scenario.TGT) [])).
    constructor.
Defined.

Lemma comparable_company_analysis_inv (provider : option string -> res Info)
    (target_ticker : string) (comparables : list string) (w w' : world)
    (fair_values : gmap string pyval) (target_metrics : CompanyMetrics) :
  comparable_company_analysis provider target_ticker comparables w
  = (w', Ok (fair_values, target_metrics)) ->
  exists (info : Info) (comparable_metrics : list (string * CompanyMetrics)),
    provider (Some target_ticker) = Ok info
    /\ target_metrics = metrics_of_info info
    /\ fair_values = value_against target_metrics comparable_metrics
    /\ Forall (faithful_entry provider) comparable_metrics
    /\ (forall t : string, t ∈ comparable_metrics.*1 <-> t ∈ comparables)
    /\ fetches w' = fetches w ++ fetch_of target_ticker :: map fetch_of comparables
    /\ w_files w' = w_files w.
Proof.
  unfold comparable_company_analysis.
  run_bind w1 tm H1; [discriminate|].
  apply fetch_inv in H1 as ((info & Hinfo & ->) & F1 & Ff1 & _).
  run_bind w2 cm H2; [discriminate|].
  apply fetch_comparables_inv in H2 as (F2 & Ff2 & _ & Hkeys & Hfaith).
  run_bind w3 u3 H3; [discriminate|]. apply print_inv in H3 as (F3 & Ff3 & _).
  run_bind w4 u4 H4; [discriminate|]. apply print_inv in H4 as (F4 & Ff4 & _).
  run_bind w5 u5 H5; [discriminate|]. apply print_inv in H5 as (F5 & Ff5 & _).
  unfold ret. intros H. inversion H; subst.
  exists info, cm.
  split; [exact Hinfo|]. split; [reflexivity|]. split; [reflexivity|].
  split; [apply Hfaith; constructor|]. split; [|split].
  - intros t. split.
    + intros Ht. apply Hkeys in Ht as [Ht|Ht]; [now apply elem_of_nil in Ht|exact Ht].
    + intros Ht. apply Hkeys. now right.
  - rewrite F5, F4, F3, F2, F1. now rewrite <- app_assoc.
  - congruence.
Qed.

(** X14 — a valuation that returns has called the provider for the target
    first and then once for each listed comparable, in order, and for
    nothing else; the metrics it hands back are the provider's record of the
    target, and the files are as before. *)
Theorem comparable_company_analysis_fetches (provider : option string -> res Info)
    (target_ticker : string) (comparables : list string) (w w' : world)
    (fair_values : gmap string pyval) (target_metrics : CompanyMetrics) :
  run (comparable_company_analysis provider target_ticker comparables) w
  = (w', Ok (fair_values, target_metrics)) ->
  fetches w' = fetches w ++ fetch_of target_ticker :: map fetch_of comparables
  /\ (exists info : Info,
        provider (Some target_ticker) = Ok info
        /\ target_metrics = metrics_of_info info)
  /\ w_files w' = w_files w.
Proof.
  intros H.
  apply comparable_company_analysis_inv in H
    as (info & cm & Hinfo & Htm & _ & _ & _ & Hf & Hfiles).
  split; [exact Hf|]. split; [now exists info|exact Hfiles].
Qed.

Lemma comparable_company_analysis_fetches_witness :
  fetches (run (comparable_company_analysis (Scenario.market [] Scenario.no_ticker)
                  "TGT" ["ADM"; "BG"]) (Scenario.start [])).1
  = [EvFetch (Some "TGT"); EvFetch (Some "ADM"); EvFetch (Some "BG")].
Proof.
  refine (proj1 (comparable_company_analysis_fetches
                   (Scenario.market [] Scenario.no_ticker) "TGT" ["ADM"; "BG"]
                   (Scenario.start []) _
                   (value_against (metrics_of_info Scenario.TGT)
                      [("ADM", metrics_of_info Scenario.ADM);
                       ("BG", metrics_of_info Scenario.BG)])
                   (metrics_of_info Scenario.TGT) _)).
  vm_compute. reflexivity.
Defined.

(** ** The report *)













(** ** The store *)




(** ** The resolver *)




(** ** The whole run *)




(** X19 — after a declined confirmation nothing is stored: with a ticker
    the provider knows and an answer other than "y", the run ends, returning
    or raising, with every file as it was. *)
Theorem declined_stores_nothing (provider : option string -> res Info)
    (line answer name : string) (info : Info)
    (rest : list string) (tr : list event) (files : gmap string (list ResultRow)) :
  provider (Some (PyStr.strip line)) = Ok info -> shortName info = Some name ->
  PyStr.lower (PyStr.strip answer) <> "y" ->
  w_files (run (main provider) (World (line :: answer :: rest) tr files)).1 = files.
Proof.
  intros Hinfo Hname Hno. unfold run, main.
  erewrite bind_ok by reflexivity.
  erewrite bind_ok
    by (apply search_stock_declined with (info := info); eassumption).
  match goal with
  | |- w_files (?m ?w0).1 = _ =>
      assert (Hkeep : preserves same_files m); [|exact (Hkeep w0)]
  end.
  apply (preserves_bind same_files same_files_trans).
  - intros w0. apply keeps_files_fetch.
  - intros target_metrics.
    apply (preserves_bind same_files same_files_trans).
    + intros w0. apply keeps_files_find_comparables.
    + intros [|c cs]; apply same_files_emit.
Qed.

Lemma declined_stores_nothing_witness :
  w_files (run (main (Scenario.market [] (Ok Scenario.TGT)))
             (World ["TGT"; "no"] [] {[EXCEL_FILE := [Rows.ev]]})).1
  = {[EXCEL_FILE := [Rows.ev]]}.
Proof.
  apply (declined_stores_nothing (Scenario.market [] (Ok Scenario.TGT))
           "TGT" "no" "Target Foods" Scenario.TGT); first [reflexivity | discriminate].
Defined.

(** ** The two estimates *)

(** X20 — the two estimates do not depend on each other's figures: the
    EV/EBITDA entry is the same whatever the target's Earnings and the median
    P/E are, and the P/E entry is the same whatever the target's Ebitda and
    the median EV/EBITDA are, so a missing figure disables its own estimate
    only. *)
Theorem estimates_independent (target_metrics : CompanyMetrics)
    (median_pe median_pe' median_ev_ebitda median_ev_ebitda' earnings ebitda_ : option Q) :
  estimate_fair_values (with_Earnings earnings target_metrics) median_pe'
    median_ev_ebitda !! "EV/EBITDA"
  = estimate_fair_values target_metrics median_pe median_ev_ebitda !! "EV/EBITDA"
  /\ estimate_fair_values (with_Ebitda ebitda_ target_metrics) median_pe
       median_ev_ebitda' !! "P/E"
     = estimate_fair_values target_metrics median_pe median_ev_ebitda !! "P/E".
Proof. split; [now rewrite !ev_ebitda_entry|now rewrite !pe_entry]. Qed.

Lemma median_positive (ratios : list Q) :
  ratios <> [] -> (forall x : Q, x ∈ ratios -> (0 < x)%Q) -> (0 < median ratios)%Q.
Proof.
  intros Hne Hb. unfold median.
  pose proof (sort_values_perm ratios) as Hperm.
  assert (Hlen : length (sort_values ratios) = length ratios)
    by (now rewrite Hperm).
  assert (Hpos : (0 < length ratios)%nat)
    by (destruct ratios; [congruence|simpl; lia]).
  assert (Hnth : forall i : nat,
             (i < length ratios)%nat -> (0 < nth i (sort_values ratios) 0)%Q).
  { intros i Hi. apply Hb. apply list_elem_of_In.
    apply (Permutation_in _ Hperm). apply nth_In. now rewrite Hlen. }
  rewrite Hlen.
  assert (Hhalf : (length ratios / 2 < length ratios)%nat)
    by (apply Nat.div_lt; lia).
  destruct (Nat.even (length ratios)).
  - pose proof (Hnth (length ratios / 2 - 1)%nat ltac:(lia)) as H1.
    pose proof (Hnth (length ratios / 2)%nat ltac:(lia)) as H2.
    apply Qlt_shift_div_l; [reflexivity|]. lra.
  - now apply Hnth.
Qed.

Lemma pe_ratio_positive (metrics : CompanyMetrics) (x : Q) :
  (forall p : Q, Price metrics = Some p -> (0 <= p)%Q) ->
  x ∈ pe_ratio metrics -> (0 < x)%Q.
Proof.
  intros Hprice. unfold pe_ratio.
  destruct (truthy (Price metrics)) eqn:Hp; [|intros H; now apply elem_of_nil in H].
  destruct (truthy (Earnings metrics)) eqn:He; [|intros H; now apply elem_of_nil in H].
  destruct (positive (Earnings metrics)) eqn:Hpos;
    [|intros H; now apply elem_of_nil in H].
  cbn [andb]. intros Hx. apply list_elem_of_singleton in Hx as ->.
  apply truthy_inv in Hp as (p & Ep & Hp0).
  destruct (Earnings metrics) as [e|]; [|discriminate].
  rewrite Ep. cbn [get default].
  specialize (Hprice p Ep).
  assert (He0 : (0 < e)%Q).
  { simpl in Hpos. unfold Qlt_bool in Hpos. apply negb_true_iff in Hpos.
    destruct (Qlt_le_dec 0 e) as [H|H]; [exact H|].
    apply Qle_bool_iff in H. congruence. }
  assert (Hp1 : (0 < p)%Q).
  { destruct (Qlt_le_dec 0 p) as [H|H]; [exact H|].
    exfalso. apply Hp0. now apply Qle_antisym. }
  apply Qlt_shift_div_l; [exact He0|]. now rewrite Qmult_0_l.
Qed.

(** X21 — when no comparable has a negative Price, every ratio of the P/E
    sample is positive and so is its median: whenever there is a median P/E
    it passes the truth test of the estimate, and the P/E estimate of a
    target with positive Earnings and a share count other than zero is a
    number. *)
Theorem median_pe_usable (target_metrics : CompanyMetrics)
    (comparable_metrics : list (string * CompanyMetrics)) (m e s : Q) :
  Forall (fun kv => forall p : Q, Price kv.2 = Some p -> (0 <= p)%Q)
    comparable_metrics ->
  median_opt (flat_map (fun kv => pe_ratio kv.2) comparable_metrics) = Some m ->
  (0 < m)%Q
  /\ (Earnings target_metrics = Some e -> (0 < e)%Q ->
      SharesOutstanding target_metrics = Some s -> ~ (s == 0)%Q ->
      value_against target_metrics comparable_metrics !! "P/E"
      = Some (PNum (m * e / s))).
Proof.
  intros Hprices Hmedian.
  assert (Hm : (0 < m)%Q).
  { destruct (flat_map (fun kv => pe_ratio kv.2) comparable_metrics) as [|x xs] eqn:E;
      [discriminate|].
    cbn [median_opt] in Hmedian. inversion Hmedian as [Hm]. rewrite <- E.
    apply median_positive; [rewrite E; discriminate|].
    intros y Hy. apply list_elem_of_In, in_flat_map in Hy as (kv & Hkv & Hy).
    rewrite Forall_forall in Hprices.
    apply (pe_ratio_positive kv.2); [apply Hprices; now apply list_elem_of_In|].
    now apply list_elem_of_In. }
  split; [exact Hm|].
  intros He Hepos Hs Hs0. unfold value_against. rewrite pe_entry, Hmedian, He, Hs.
  rewrite (positive_Some e Hepos).
  rewrite !truthy_Some; [reflexivity|exact Hs0| |].
  - intros E. rewrite E in Hm. now apply Qlt_irrefl in Hm.
  - intros E. rewrite E in Hepos. now apply Qlt_irrefl in Hepos.
Qed.

Lemma median_pe_usable_witness :
  value_against (metrics_of_info Scenario.TGT)
    [("ADM", metrics_of_info Scenario.ADM); ("BG", metrics_of_info Scenario.BG)] !! "P/E"
  = Some (PNum (median [(100 / 10)%Q; (60 / 5)%Q] * 50000000 / 10000000)).
Proof.
  apply (proj2 (median_pe_usable (metrics_of_info Scenario.TGT)
                  [("ADM", metrics_of_info Scenario.ADM);
                   ("BG", metrics_of_info Scenario.BG)]
                  (median [(100 / 10)%Q; (60 / 5)%Q]) 50000000 10000000
                  ltac:(repeat constructor; intros p Hp; inversion Hp; discriminate)
                  eq_refl));
    first [reflexivity | discriminate].
Defined.
